(** * The multipart-upload coordinator of [src/index.ts]

    A shallow embedding of the Worker's [fetch] handler and of its helper
    [withCors], together with the fragments of the JavaScript and Fetch-API
    semantics the handler relies on: [Number] applied to a query parameter,
    truthiness, property reads on a parsed JSON body, [Headers], the
    [Response] constructor and the object spread inside [withCors].

    The storage client ([s3.send], [getSignedUrl]), [crypto.randomUUID] and
    the host's treatment of [Response] properties are the handler's
    environment; they are gathered in the record [Host], and every call to
    the storage client is logged so that "the backend was (not) invoked" is
    a statement about the log. *)

From Stdlib Require Import ZArith NArith List String Ascii Bool Lia.
Import ListNotations.
Open Scope string_scope.

(* ================================================================== *)
(** ** JavaScript values *)
(* ================================================================== *)

Module Js.

(** Strings are [string]s of the standard library; a character stands for
    the code unit of the same number (U+0000 to U+00FF). *)

Definition chars (s : string) : list ascii := list_ascii_of_string s.

(** *** Numbers

    A number is kept as the exact value its literal denotes,
    [(-1)^neg * mant * 10^exp10]; the double the engine stores is the
    rounding of that value.  The handler only asks of a number whether it
    is zero or NaN, and that question is answered for the rounded value,
    see [isZero]. *)

Inductive number :=
| NaN
| Infinity (neg : bool)
| Finite (neg : bool) (mant : N) (exp10 : Z).

Definition ofZ (z : Z) : number := Finite (z <? 0)%Z (Z.abs_N z) 0.
Definition ofNat (n : nat) : number := Finite false (N.of_nat n) 0.

(** The double nearest to [mant * 10^exp10] is [0] exactly when the value
    is at most [2^-1075], half of the least subnormal [2^-1074] (a tie goes
    to the even neighbour, which is [0]). *)
Definition isZero (x : number) : bool :=
  match x with
  | Finite _ m e =>
      (m =? 0)%N
      || ((e <? 0)%Z && (Z.of_N m * 2 ^ 1075 <=? 10 ^ (- e))%Z)
  | _ => false
  end.

Definition isNaN (x : number) : bool :=
  match x with NaN => true | _ => false end.

(** ToBoolean on a number: [+0], [-0] and [NaN] are falsy. *)
Definition numberToBoolean (x : number) : bool := negb (isNaN x || isZero x).

(** The order of the exact values (for integers below [2^53], the order
    of the doubles).  [NaN] compares with nothing. *)
Definition scaled (e0 : Z) (neg : bool) (m : N) (e : Z) : Z :=
  ((if neg then -1 else 1) * Z.of_N m * 10 ^ (e - e0))%Z.

Definition leb (x y : number) : bool :=
  match x, y with
  | NaN, _ | _, NaN => false
  | Infinity true, _ | _, Infinity false => true
  | Infinity false, _ | _, Infinity true => false
  | Finite s1 m1 e1, Finite s2 m2 e2 =>
      let e0 := Z.min e1 e2 in
      (scaled e0 s1 m1 e1 <=? scaled e0 s2 m2 e2)%Z
  end.

Fixpoint ascending (l : list number) : bool :=
  match l with
  | x :: r => match r with y :: _ => leb x y | [] => true end && ascending r
  | [] => true
  end.

(** *** StringToNumber (ECMA-262, 7.1.4.1.1) *)

(** StrWhiteSpaceChar among the code units below 256: TAB, LF, VT, FF, CR,
    SP and NBSP. *)
Definition isStrWhiteSpaceChar (c : ascii) : bool :=
  let n := nat_of_ascii c in
  ((9 <=? n) && (n <=? 13))%nat || (n =? 32)%nat || (n =? 160)%nat.

Fixpoint dropWhile {A} (p : A -> bool) (l : list A) : list A :=
  match l with
  | x :: r => if p x then dropWhile p r else l
  | [] => []
  end.

Fixpoint takeWhile {A} (p : A -> bool) (l : list A) : list A :=
  match l with
  | x :: r => if p x then x :: takeWhile p r else []
  | [] => []
  end.

Definition trim (l : list ascii) : list ascii :=
  rev (dropWhile isStrWhiteSpaceChar (rev (dropWhile isStrWhiteSpaceChar l))).

(** The value of a digit in a radix up to 16, [None] for any other
    character. *)
Definition digitValue (radix : N) (c : ascii) : option N :=
  let n := N_of_ascii c in
  let v :=
    if ((48 <=? n) && (n <=? 57))%N then Some (n - 48)%N
    else if ((97 <=? n) && (n <=? 102))%N then Some (n - 87)%N
    else if ((65 <=? n) && (n <=? 70))%N then Some (n - 55)%N
    else None in
  match v with
  | Some d => if (d <? radix)%N then Some d else None
  | None => None
  end.

Definition isDigit (radix : N) (c : ascii) : bool :=
  match digitValue radix c with Some _ => true | None => false end.

(** The mathematical value of a run of digits, most significant first. *)
Definition digitsValue (radix : N) (ds : list ascii) : N :=
  fold_left
    (fun acc c => match digitValue radix c with
                  | Some d => (acc * radix + d)%N
                  | None => acc
                  end) ds 0%N.

(** NonDecimalIntegerLiteral without its two-character prefix: a non-empty
    run of digits of the radix and nothing else. *)
Definition nonDecimal (radix : N) (ds : list ascii) : number :=
  match ds with
  | [] => NaN
  | _ => if forallb (isDigit radix) ds
         then Finite false (digitsValue radix ds) 0
         else NaN
  end.

(** ExponentPart_opt at the end of a literal: [Some 0] when nothing is
    left, [Some e] for [e]/[E], an optional sign and at least one digit up
    to the end, [None] otherwise. *)
Definition exponentPart (l : list ascii) : option Z :=
  match l with
  | [] => Some 0%Z
  | c :: r =>
      if (Ascii.eqb c "e" || Ascii.eqb c "E")%bool then
        let '(sgn, ds) :=
          match r with
          | s :: r' =>
              if Ascii.eqb s "-" then (true, r')
              else if Ascii.eqb s "+" then (false, r')
              else (false, r)
          | [] => (false, r)
          end in
        match ds with
        | [] => None
        | _ =>
            if forallb (isDigit 10) ds then
              let v := Z.of_N (digitsValue 10 ds) in
              Some (if sgn then (- v)%Z else v)
            else None
        end
      else None
  end.

(** StrUnsignedDecimalLiteral: [Infinity], or digits with an optional
    fraction and an optional exponent; at least one digit before or after
    the point. *)
Definition unsignedDecimal (neg : bool) (l : list ascii) : number :=
  if list_eq_dec Ascii.ascii_dec l (chars "Infinity") then Infinity neg
  else
    let ip := takeWhile (isDigit 10) l in
    let r1 := dropWhile (isDigit 10) l in
    let '(fp, r2) :=
      match r1 with
      | c :: r =>
          if Ascii.eqb c "." then (takeWhile (isDigit 10) r, dropWhile (isDigit 10) r)
          else ([], r1)
      | [] => ([], r1)
      end in
    match (ip ++ fp)%list with
    | [] => NaN
    | ds =>
        match exponentPart r2 with
        | Some e => Finite neg (digitsValue 10 ds) (e - Z.of_nat (List.length fp))
        | None => NaN
        end
    end.

Definition StringToNumber (s : string) : number :=
  match trim (chars s) with
  | [] => Finite false 0 0
  | (c :: r) as l =>
      match r with
      | p :: ds =>
          if Ascii.eqb c "0" && (Ascii.eqb p "x" || Ascii.eqb p "X") then nonDecimal 16 ds
          else if Ascii.eqb c "0" && (Ascii.eqb p "o" || Ascii.eqb p "O") then nonDecimal 8 ds
          else if Ascii.eqb c "0" && (Ascii.eqb p "b" || Ascii.eqb p "B") then nonDecimal 2 ds
          else if Ascii.eqb c "-" then unsignedDecimal true r
          else if Ascii.eqb c "+" then unsignedDecimal false r
          else unsignedDecimal false l
      | [] => unsignedDecimal false l
      end
  end.

(** [Number(v)] for [v : string | null], the type of
    [URLSearchParams.get]: [null] converts to [+0]. *)
Definition Number (v : option string) : number :=
  match v with
  | None => Finite false 0 0
  | Some s => StringToNumber s
  end.

(** *** Values of a parsed JSON text *)

#[warnings="-register-all"]
Inductive JSON :=
| JNull
| JBool (b : bool)
| JNum (n : number)
| JStr (s : string)
| JArr (items : list JSON)
| JObj (props : list (string * JSON)).

(** A value that may be [undefined]: what a property read yields. *)
Definition value := option JSON.
Definition undefined : value := None.

Definition ToBoolean (v : value) : bool :=
  match v with
  | None | Some JNull => false
  | Some (JBool b) => b
  | Some (JNum n) => numberToBoolean n
  | Some (JStr s) => negb (s =? "")
  | Some (JArr _) | Some (JObj _) => true
  end.

(** [!v] for [v : string | null]. *)
Definition stringToBoolean (v : option string) : bool :=
  ToBoolean (option_map JStr v).

(** The own properties of a parsed object, each name once, in the order of
    the text. *)
Fixpoint assoc (p : string) (props : list (string * JSON)) : value :=
  match props with
  | [] => None
  | (k, v) :: r => if k =? p then Some v else assoc p r
  end.

(** An object literal whose properties may be [undefined], as
    [JSON.stringify] sees it: such properties are left out. *)
Fixpoint defined (props : list (string * value)) : list (string * JSON) :=
  match props with
  | [] => []
  | (k, Some v) :: r => (k, v) :: defined r
  | (_, None) :: r => defined r
  end.

(** *** Exceptions

    What the handler catches are [Error] objects: the [SyntaxError] of
    [request.json()], the [TypeError] of a property read on [null] or of a
    call of something that is no function, and the errors of the storage
    client.  Each has a [message] and the [stack] the engine attached to it
    when it was created. *)

Record Error := { name : string; message : string; stack : string }.

Section Engine.

(** The stack text the engine attaches to an error of a given name and
    message created inside the handler. *)
Variable captureStackTrace : string -> string -> string.

Definition TypeError (msg : string) : Error :=
  {| name := "TypeError"; message := msg;
     stack := captureStackTrace "TypeError" msg |}.

(** The property read [v.p] on a parsed JSON value, for the property
    names the handler reads ([key], [uploadId], [parts], [length],
    [etag], [partNumber]): it throws on [null], finds nothing on a
    boolean or a number, [length] on a string or an array, and the own
    property on an object. *)
Definition Get (v : JSON) (p : string) : Error + value :=
  match v with
  | JNull =>
      inl (TypeError ("Cannot read properties of null (reading '" ++ p ++ "')"))
  | JBool _ | JNum _ => inr undefined
  | JStr s =>
      inr (if p =? "length" then Some (JNum (ofNat (String.length s))) else undefined)
  | JArr l =>
      inr (if p =? "length" then Some (JNum (ofNat (List.length l))) else undefined)
  | JObj props => inr (assoc p props)
  end.

(** The optional chain [v?.p]. *)
Definition GetOptional (v : value) (p : string) : Error + value :=
  match v with
  | None | Some JNull => inr undefined
  | Some o => Get o p
  end.

End Engine.

End Js.


(* ================================================================== *)
(** ** The Fetch API: headers, responses, requests *)
(* ================================================================== *)

Module Http.

(** Header names are case-insensitive; a [Headers] object keeps them in
    lower case. *)
Definition lowerChar (c : ascii) : ascii :=
  let n := nat_of_ascii c in
  if ((65 <=? n) && (n <=? 90))%nat then ascii_of_nat (n + 32) else c.

Fixpoint lower (s : string) : string :=
  match s with
  | EmptyString => EmptyString
  | String c r => String (lowerChar c) (lower r)
  end.

Definition Headers := list (string * string).

Fixpoint getRaw (h : Headers) (n : string) : option string :=
  match h with
  | [] => None
  | (k, v) :: r => if k =? n then Some v else getRaw r n
  end.

Fixpoint setRaw (h : Headers) (n v : string) : Headers :=
  match h with
  | [] => [(n, v)]
  | (k, w) :: r => if k =? n then (k, v) :: r else (k, w) :: setRaw r n v
  end.

(** [headers.get(name)] *)
Definition get (h : Headers) (name : string) : option string :=
  getRaw h (lower name).

(** [headers.set(name, value)] *)
Definition set (h : Headers) (name value : string) : Headers :=
  setRaw h (lower name) value.

(** [headers.append(name, value)]: a repeated name has its values joined. *)
Definition append (h : Headers) (name value : string) : Headers :=
  match get h name with
  | Some old => set h name (old ++ ", " ++ value)
  | None => set h name value
  end.

(** [new Headers(init)] for a record of name/value pairs. *)
Definition fromRecord (init : list (string * string)) : Headers :=
  fold_left (fun h nv => append h (fst nv) (snd nv)) init [].

(** The text of a body: a plain string, or the string [JSON.stringify]
    produces for a value. *)
Inductive Text :=
| Plain (s : string)
| Json (v : Js.JSON).

(** [JSON.stringify] of an object literal. *)
Definition JSON_stringify (props : list (string * Js.value)) : Text :=
  Json (Js.JObj (Js.defined props)).

(** The first argument of [new Response]: a string, or the stream read off
    another response's [body]. *)
Inductive BodyInit :=
| FromString (t : Text)
| FromStream (t : Text).

Definition textOf (b : BodyInit) : Text :=
  match b with FromString t | FromStream t => t end.

Record Response := {
  status : N;
  statusText : string;
  headers : Headers;
  body : option Text
}.

(** The second argument of [new Response]; a member that is absent is
    [None]. *)
Record ResponseInit := {
  init_status : option N;
  init_statusText : option string;
  init_headers : option Headers
}.

Definition noInit : ResponseInit :=
  {| init_status := None; init_statusText := None; init_headers := None |}.

(** [new Response(body, init)]: status 200 and an empty status text unless
    [init] gives them; a string body gets the content type of plain text
    when [init]'s headers name none. *)
Definition new_Response (b : option BodyInit) (init : ResponseInit) : Response :=
  let hs := match init_headers init with Some h => h | None => [] end in
  {| status := match init_status init with Some s => s | None => 200%N end;
     statusText := match init_statusText init with Some t => t | None => "" end;
     headers :=
       match b, get hs "Content-Type" with
       | Some (FromString _), None => append hs "Content-Type" "text/plain;charset=UTF-8"
       | _, _ => hs
       end;
     body := option_map textOf b |}.

(** [response.body], handed to another [new Response]. *)
Definition bodyStream (r : Response) : option BodyInit :=
  option_map FromStream (body r).

(** [new URL(request.url)], as far as the handler reads it. *)
Record URL := {
  pathname : string;
  searchParams : list (string * string)
}.

(** [url.searchParams.get(name)]: the first value of that name, or [null]. *)
Fixpoint searchParams_get (ps : list (string * string)) (name : string) : option string :=
  match ps with
  | [] => None
  | (k, v) :: r => if k =? name then Some v else searchParams_get r name
  end.

(** A request: its method, its URL, and what awaiting [request.json()]
    gives, the parsed body or the exception thrown for a body that is no
    JSON text. *)
Record Request := {
  method : string;
  url : URL;
  json : Js.Error + Js.JSON
}.

End Http.

(* ================================================================== *)
(** ** The storage client *)
(* ================================================================== *)

Module S3.

(** One element of [MultipartUpload.Parts]. *)
Record CompletedPart := { ETag : Js.value; PartNumber : Js.value }.

(** The three commands the handler builds, with the arguments as they are
    at run time: the query parameters of [/sign-part] are [string | null],
    the members of the body of [/complete] are whatever was parsed. *)
Inductive Command :=
| CreateMultipartUploadCommand (Bucket Key : string)
| UploadPartCommand (Bucket : string) (Key : option string)
    (PartNumber : Js.number) (UploadId : option string)
| CompleteMultipartUploadCommand (Bucket : string) (Key UploadId : Js.value)
    (Parts : list CompletedPart).

Definition Bucket (c : Command) : string :=
  match c with
  | CreateMultipartUploadCommand b _ => b
  | UploadPartCommand b _ _ _ => b
  | CompleteMultipartUploadCommand b _ _ _ => b
  end.

(** The members of a command's output the handler reads; both are optional
    in the client's types. *)
Record Output := { UploadId : option string; Location : option string }.

(** An operation of the storage client. *)
Inductive Call :=
| Send (c : Command)
| GetSignedUrl (c : Command) (expiresIn : N).

Definition command (c : Call) : Command :=
  match c with Send k | GetSignedUrl k _ => k end.

End S3.

(** The handler's environment. *)
Record Host := {
  (** [s3.send(command)] *)
  send : S3.Command -> Js.Error + S3.Output;
  (** [getSignedUrl(s3, command, { expiresIn })] *)
  getSignedUrl : S3.Command -> N -> Js.Error + string;
  (** [crypto.randomUUID()] *)
  randomUUID : string;
  (** The stack the engine attaches to an error created in the handler,
      from the error's name and message. *)
  captureStackTrace : string -> string -> string;
  (** Whether a [Response] holds [status] and [statusText] as own
      enumerable properties, which is what the object spread in [withCors]
      copies.  The Fetch standard defines them as accessors of
      [Response.prototype], and then this is [false]. *)
  responseOwnProperties : bool
}.

(** The outcome of one operation of the storage client: [Some e] when it
    throws [e]. *)
Definition raised (h : Host) (c : S3.Call) : option Js.Error :=
  match c with
  | S3.Send k => match send h k with inl e => Some e | inr _ => None end
  | S3.GetSignedUrl k t =>
      match getSignedUrl h k t with inl e => Some e | inr _ => None end
  end.

(* ================================================================== *)
(** ** The Worker *)
(* ================================================================== *)

Module Worker.

Import Js Http S3.

(** *** Computations that log the storage operations and may throw *)

Definition M (A : Type) : Type := list Call * (Error + A).

Definition ret {A} (a : A) : M A := ([], inr a).

Definition throw {A} (e : Error) : M A := ([], inl e).

Definition bind {A B} (m : M A) (f : A -> M B) : M B :=
  match m with
  | (log, inl e) => (log, inl e)
  | (log, inr a) => let (log', r) := f a in ((log ++ log')%list, r)
  end.

(** A step that calls nothing: a property read, or the awaited body. *)
Definition lift {A} (r : Error + A) : M A := ([], r).

Notation "x <- m ;; k" := (bind m (fun x => k))
  (at level 61, m at next level, right associativity).

Fixpoint mapM {A B} (f : A -> M B) (l : list A) : M (list B) :=
  match l with
  | [] => ret []
  | x :: r => y <- f x ;; ys <- mapM f r ;; ret (y :: ys)
  end.

Section Handler.

Variable h : Host.

(** [await s3.send(command)] *)
Definition s3_send (c : Command) : M Output := ([Send c], send h c).

(** [await getSignedUrl(s3, command, { expiresIn })] *)
Definition s3_getSignedUrl (c : Command) (expiresIn : N) : M string :=
  ([GetSignedUrl c expiresIn], getSignedUrl h c expiresIn).

(** [{ ...response }], as far as [new Response] looks at it.  An object
    spread copies the own enumerable properties of its operand (ECMA-262,
    CopyDataProperties).  The Fetch standard declares [status],
    [statusText] and [headers] as attributes of the interface, that is,
    accessors of [Response.prototype]: on a host that follows it a
    response has no such own property and the spread hands over nothing.
    A host that keeps them on each instance hands them over. *)
Definition spread (response : Response) : ResponseInit :=
  if responseOwnProperties h then
    {| init_status := Some (status response);
       init_statusText := Some (statusText response);
       init_headers := Some (headers response) |}
  else noInit.

(** [{ ...init, headers }] *)
Definition withHeaders (init : ResponseInit) (hs : Headers) : ResponseInit :=
  {| init_status := init_status init;
     init_statusText := init_statusText init;
     init_headers := Some hs |}.

(** [withCors], lines 22-28. *)
Definition withCors (response : Response) : Response :=
  let headers0 := headers response in
  let headers1 := set headers0 "Access-Control-Allow-Origin" "*" in
  let headers2 := set headers1 "Access-Control-Allow-Methods" "GET,POST,OPTIONS" in
  let headers3 := set headers2 "Access-Control-Allow-Headers" "Content-Type" in
  new_Response (bodyStream response) (withHeaders (spread response) headers3).

Definition jsonHeaders : ResponseInit :=
  {| init_status := None; init_statusText := None;
     init_headers := Some (fromRecord [("Content-Type", "application/json")]) |}.

Definition withStatus (s : N) (init : ResponseInit) : ResponseInit :=
  {| init_status := Some s;
     init_statusText := init_statusText init;
     init_headers := init_headers init |}.

(** The response to a preflight request, lines 41-47. *)
Definition preflight : Response :=
  new_Response None
    {| init_status := None; init_statusText := None;
       init_headers :=
         Some (fromRecord
                 [("Access-Control-Allow-Origin", "*");
                  ("Access-Control-Allow-Methods", "GET,POST,OPTIONS");
                  ("Access-Control-Allow-Headers", "Content-Type")]) |}.

(** The responses the handler builds before [withCors], lines 88, 111,
    132 and 136-139. *)
Definition missingParameters : Response :=
  new_Response (Some (FromString (Plain "Missing parameters"))) (withStatus 400 noInit).

Definition invalidRequestBody : Response :=
  new_Response (Some (FromString (Plain "Invalid request body"))) (withStatus 400 noInit).

Definition notFound : Response :=
  new_Response (Some (FromString (Plain "Not found"))) (withStatus 404 noInit).

Definition errorResponse (err : Error) : Response :=
  new_Response
    (Some (FromString (JSON_stringify
       [("error", Some (JStr (message err)));
        ("stack", Some (JStr (stack err)))])))
    (withStatus 500 jsonHeaders).

(** [p => ({ ETag: p.etag, PartNumber: p.partNumber })] *)
Definition toCompletedPart (p : JSON) : M CompletedPart :=
  etag <- lift (Get (captureStackTrace h) p "etag") ;;
  partNumber <- lift (Get (captureStackTrace h) p "partNumber") ;;
  ret {| ETag := etag; PartNumber := partNumber |}.

(** [body.parts.map(f)]: only an array has a [map] to call. *)
Definition parts_map (parts : value) (f : JSON -> M CompletedPart)
  : M (list CompletedPart) :=
  match parts with
  | Some (JArr items) => mapM f items
  | _ => throw (TypeError (captureStackTrace h) "body.parts.map is not a function")
  end.

(** STEP 1, lines 62-76. *)
Definition initiate : M Response :=
  let key := "uploads/" ++ randomUUID h ++ ".mp4" in
  let command := CreateMultipartUploadCommand "large-video-uploads" key in
  res <- s3_send command ;;
  ret (withCors
         (new_Response
            (Some (FromString (JSON_stringify
               [("uploadId", option_map JStr (UploadId res));
                ("key", Some (JStr key))])))
            jsonHeaders)).

(** STEP 2, lines 79-101. *)
Definition signPart (url : URL) : M Response :=
  let key := searchParams_get (searchParams url) "key" in
  let uploadId := searchParams_get (searchParams url) "uploadId" in
  let partNumber := Number (searchParams_get (searchParams url) "partNumber") in
  if negb (stringToBoolean key) || negb (stringToBoolean uploadId)
     || negb (numberToBoolean partNumber)
  then ret (withCors missingParameters)
  else
    let command := UploadPartCommand "large-video=uploads" key partNumber uploadId in
    signedUrl <- s3_getSignedUrl command 3600 ;;
    ret (withCors
           (new_Response
              (Some (FromString (JSON_stringify [("signedUrl", Some (JStr signedUrl))])))
              jsonHeaders)).

(** STEP 3, lines 104-129. *)
Definition complete (request : Request) : M Response :=
  body <- lift (json request) ;;
  key <- lift (Get (captureStackTrace h) body "key") ;;
  if negb (ToBoolean key) then ret (withCors invalidRequestBody) else
  uploadId <- lift (Get (captureStackTrace h) body "uploadId") ;;
  if negb (ToBoolean uploadId) then ret (withCors invalidRequestBody) else
  parts <- lift (Get (captureStackTrace h) body "parts") ;;
  len <- lift (GetOptional (captureStackTrace h) parts "length") ;;
  if negb (ToBoolean len) then ret (withCors invalidRequestBody) else
  Parts <- parts_map parts toCompletedPart ;;
  let command :=
    CompleteMultipartUploadCommand "large-video-uploads" key uploadId Parts in
  result <- s3_send command ;;
  ret (withCors
         (new_Response
            (Some (FromString (JSON_stringify
               [("location", option_map JStr (Location result));
                ("key", key)])))
            jsonHeaders)).

(** The body of the [try], lines 61-132. *)
Definition route (request : Request) : M Response :=
  let url := url request in
  if pathname url =? "/initiate" then initiate
  else if pathname url =? "/sign-part" then signPart url
  else if pathname url =? "/complete" then complete request
  else ret (withCors notFound).

(** [fetch], lines 31-142: the preflight answer, or the body of the [try]
    with the [catch] of lines 133-141 for what it throws.  The handler
    always ends with a response; it is returned with the log of the
    storage operations made on the way.  (The [console] calls and the
    construction of the storage client, lines 51-58, have no effect on
    either and are left out.) *)
Definition fetch (request : Request) : Response * list Call :=
  if method request =? "OPTIONS" then (preflight, [])
  else
    match route request with
    | (log, inr response) => (response, log)
    | (log, inl err) => (withCors (errorResponse err), log)
    end.

(** *** Shapes of computations, for the proofs below *)

(** The guard of line 109 on a parsed object, as one condition. *)
Definition invalidBody (props : list (string * JSON)) : bool :=
  negb (ToBoolean (assoc "key" props))
  || negb (ToBoolean (assoc "uploadId" props))
  || match GetOptional (captureStackTrace h) (assoc "parts" props) "length" with
     | inr len => negb (ToBoolean len)
     | inl _ => false
     end.

(** A computation that makes no storage operation. *)
Definition quiet {A} (m : M A) : Prop := fst m = [].

(** A computation that makes at most one storage operation and, when
    that operation throws, ends with what it threw. *)
Definition oneShot {A} (m : M A) : Prop :=
  fst m = [] \/
  exists c, fst m = [c] /\ forall e, raised h c = Some e -> snd m = inl e.

(** A computation whose responses all come out of [withCors]. *)
Definition wrapped (m : M Response) : Prop :=
  forall r, snd m = inr r -> exists r0, r = withCors r0.

End Handler.

End Worker.

(* ================================================================== *)
(** ** Clients and scenarios *)
(* ================================================================== *)

(** The body a client sends to [/complete], as the interface
    [CompleteUploadRequest] of lines 15-19 types it, and the JSON value it
    parses to. *)
Module Client.

Import Js.

Record Part := { etag : string; partNumber : number }.

Record CompleteUploadRequest := {
  key : string;
  uploadId : string;
  parts : list Part
}.

Definition partJSON (p : Part) : JSON :=
  JObj [("etag", JStr (etag p)); ("partNumber", JNum (partNumber p))].

Definition toJSON (r : CompleteUploadRequest) : JSON :=
  JObj [("key", JStr (key r)); ("uploadId", JStr (uploadId r));
        ("parts", JArr (map partJSON (parts r)))].

(** The element of [MultipartUpload.Parts] a manifest entry becomes. *)
Definition toCompletedPart (p : Part) : S3.CompletedPart :=
  {| S3.ETag := Some (JStr (etag p)); S3.PartNumber := Some (JNum (partNumber p)) |}.

End Client.

(** What is read off a response and off the log. *)
Module Observe.

Import Js Http S3.

(** A member of the object a JSON response body holds. *)
Definition responseField (r : Response) (p : string) : value :=
  match body r with
  | Some (Json (JObj props)) => assoc p props
  | _ => undefined
  end.

Definition is2xx (s : N) : bool := ((200 <=? s) && (s <? 300))%N.
Definition is4xx (s : N) : bool := ((400 <=? s) && (s <? 500))%N.
Definition is5xx (s : N) : bool := ((500 <=? s) && (s <? 600))%N.

(** The part numbers of a completion command, in the order forwarded. *)
Definition numberOf (v : value) : number :=
  match v with Some (JNum n) => n | _ => NaN end.

Definition forwardedPartNumbers (c : Call) : list number :=
  match command c with
  | CompleteMultipartUploadCommand _ _ _ ps => map (fun p => numberOf (PartNumber p)) ps
  | _ => []
  end.

(** The part numbers the storage client was handed, over a whole log. *)
Definition forwarded (log : list Call) : list number :=
  flat_map forwardedPartNumbers log.

Definition buckets (log : list Call) : list string :=
  map (fun c => Bucket (command c)) log.

(** The three cross-origin headers of a response. *)
Definition carriesCors (r : Response) : Prop :=
  get (headers r) "Access-Control-Allow-Origin" = Some "*" /\
  get (headers r) "Access-Control-Allow-Methods" = Some "GET,POST,OPTIONS" /\
  get (headers r) "Access-Control-Allow-Headers" = Some "Content-Type".

(** [s] ends with [suffix]. *)
Definition endsWith (s suffix : string) : Prop := exists p, s = p ++ suffix.

End Observe.

Module Scenario.

Import Js Http S3.

Definition stackOf (name msg : string) : string :=
  name ++ ": " ++ msg ++ "
    at Object.fetch (index.js)".

(** A storage stub that opens session [U1], signs and completes. *)
Definition stub (own : bool) : Host :=
  {| send := fun _ =>
       inr {| UploadId := Some "U1";
              Location := Some "https://r2.example/large-video-uploads/uploads/abc.mp4" |};
     getSignedUrl := fun _ _ => inr "https://r2.example/signed";
     randomUUID := "abc";
     captureStackTrace := stackOf;
     responseOwnProperties := own |}.

(** A host as the Fetch standard has it. *)
Definition standard : Host := stub false.

Definition sessionNotFound : Error :=
  {| name := "NoSuchUpload"; message := "session not found";
     stack := stackOf "NoSuchUpload" "session not found" |}.

(** A storage stub that raises "session not found" on every operation. *)
Definition failing (own : bool) : Host :=
  {| send := fun _ => inl sessionNotFound;
     getSignedUrl := fun _ _ => inl sessionNotFound;
     randomUUID := "abc";
     captureStackTrace := stackOf;
     responseOwnProperties := own |}.

Definition syntaxError : Error :=
  {| name := "SyntaxError"; message := "Unexpected end of JSON input";
     stack := stackOf "SyntaxError" "Unexpected end of JSON input" |}.

(** A request without a usable body. *)
Definition request (m path : string) (query : list (string * string)) : Request :=
  {| method := m;
     url := {| pathname := path; searchParams := query |};
     json := inl syntaxError |}.

Definition post (path : string) (b : JSON) : Request :=
  {| method := "POST";
     url := {| pathname := path; searchParams := [] |};
     json := inr b |}.

Definition signPart (partNumber : string) : Request :=
  request "GET" "/sign-part"
    [("key", "uploads/abc.mp4"); ("uploadId", "U1"); ("partNumber", partNumber)].

Definition manifest (ps : list Client.Part) : Client.CompleteUploadRequest :=
  {| Client.key := "uploads/abc.mp4"; Client.uploadId := "U1"; Client.parts := ps |}.

Definition part (e : string) (n : Z) : Client.Part :=
  {| Client.etag := e; Client.partNumber := ofZ n |}.

End Scenario.

(* ================================================================== *)
(** ** The two earlier revisions of the handler *)
(* ================================================================== *)

(** The first revision ([src/unnamed/part_000], lines 1-119): no
    preflight answer, no [withCors], no [try]; one bucket, [videos].  What
    the handler throws rejects the promise it returns. *)
Module Revision1.

Import Js Http S3 Worker.

Section Handler.

Variable h : Host.

(** Step 1, lines 50-63. *)
Definition initiate : M Response :=
  let key := "uploads/" ++ randomUUID h ++ ".mp4" in
  let command := CreateMultipartUploadCommand "videos" key in
  res <- s3_send h command ;;
  ret (new_Response
         (Some (FromString (JSON_stringify
            [("uploadId", option_map JStr (UploadId res));
             ("key", Some (JStr key))])))
         jsonHeaders).

(** Step 2, lines 66-87. *)
Definition signPart (url : URL) : M Response :=
  let key := searchParams_get (searchParams url) "key" in
  let uploadId := searchParams_get (searchParams url) "uploadId" in
  let partNumber := Number (searchParams_get (searchParams url) "partNumber") in
  if negb (stringToBoolean key) || negb (stringToBoolean uploadId)
     || negb (numberToBoolean partNumber)
  then ret missingParameters
  else
    let command := UploadPartCommand "videos" key partNumber uploadId in
    signedUrl <- s3_getSignedUrl h command 3600 ;;
    ret (new_Response
           (Some (FromString (JSON_stringify [("signedUrl", Some (JStr signedUrl))])))
           jsonHeaders).

(** Step 3, lines 90-115. *)
Definition complete (request : Request) : M Response :=
  body <- lift (json request) ;;
  key <- lift (Get (captureStackTrace h) body "key") ;;
  if negb (ToBoolean key) then ret invalidRequestBody else
  uploadId <- lift (Get (captureStackTrace h) body "uploadId") ;;
  if negb (ToBoolean uploadId) then ret invalidRequestBody else
  parts <- lift (Get (captureStackTrace h) body "parts") ;;
  len <- lift (GetOptional (captureStackTrace h) parts "length") ;;
  if negb (ToBoolean len) then ret invalidRequestBody else
  Parts <- parts_map h parts (toCompletedPart h) ;;
  let command := CompleteMultipartUploadCommand "videos" key uploadId Parts in
  result <- s3_send h command ;;
  ret (new_Response
         (Some (FromString (JSON_stringify
            [("location", option_map JStr (Location result))])))
         jsonHeaders).

(** The body of [fetch], lines 37-117. *)
Definition route (request : Request) : M Response :=
  let url := url request in
  if pathname url =? "/initiate" then initiate
  else if pathname url =? "/sign-part" then signPart url
  else if pathname url =? "/complete" then complete request
  else ret notFound.

(** [fetch], lines 36-118: the promise is fulfilled with a response or
    rejected with what was thrown; with it, the log of the storage
    operations. *)
Definition fetch (request : Request) : (Error + Response) * list Call :=
  let (log, outcome) := route request in (outcome, log).

End Handler.

End Revision1.

(** The second revision ([src/unnamed/part_000], lines 120-262): the
    preflight answer, [withCors] (lines 143-149, the same function as in
    [src/index.ts]) and the [try]; one bucket, [videos]; the [catch]
    reports the message only. *)
Module Revision2.

Import Js Http S3 Worker.

Section Handler.

Variable h : Host.

(** The response of the [catch], lines 254-259. *)
Definition errorResponse (err : Error) : Response :=
  new_Response
    (Some (FromString (JSON_stringify [("error", Some (JStr (message err)))])))
    (withStatus 500 jsonHeaders).

(** Step 1, lines 178-192. *)
Definition initiate : M Response :=
  let key := "uploads/" ++ randomUUID h ++ ".mp4" in
  let command := CreateMultipartUploadCommand "videos" key in
  res <- s3_send h command ;;
  ret (withCors h
         (new_Response
            (Some (FromString (JSON_stringify
               [("uploadId", option_map JStr (UploadId res));
                ("key", Some (JStr key))])))
            jsonHeaders)).

(** Step 2, lines 195-218. *)
Definition signPart (url : URL) : M Response :=
  let key := searchParams_get (searchParams url) "key" in
  let uploadId := searchParams_get (searchParams url) "uploadId" in
  let partNumber := Number (searchParams_get (searchParams url) "partNumber") in
  if negb (stringToBoolean key) || negb (stringToBoolean uploadId)
     || negb (numberToBoolean partNumber)
  then ret (withCors h missingParameters)
  else
    let command := UploadPartCommand "videos" key partNumber uploadId in
    signedUrl <- s3_getSignedUrl h command 3600 ;;
    ret (withCors h
           (new_Response
              (Some (FromString (JSON_stringify [("signedUrl", Some (JStr signedUrl))])))
              jsonHeaders)).

(** Step 3, lines 221-250. *)
Definition complete (request : Request) : M Response :=
  body <- lift (json request) ;;
  key <- lift (Get (captureStackTrace h) body "key") ;;
  if negb (ToBoolean key) then ret (withCors h invalidRequestBody) else
  uploadId <- lift (Get (captureStackTrace h) body "uploadId") ;;
  if negb (ToBoolean uploadId) then ret (withCors h invalidRequestBody) else
  parts <- lift (Get (captureStackTrace h) body "parts") ;;
  len <- lift (GetOptional (captureStackTrace h) parts "length") ;;
  if negb (ToBoolean len) then ret (withCors h invalidRequestBody) else
  Parts <- parts_map h parts (toCompletedPart h) ;;
  let command := CompleteMultipartUploadCommand "videos" key uploadId Parts in
  result <- s3_send h command ;;
  ret (withCors h
         (new_Response
            (Some (FromString (JSON_stringify
               [("location", option_map JStr (Location result))])))
            jsonHeaders)).

(** The body of the [try], lines 177-252. *)
Definition route (request : Request) : M Response :=
  let url := url request in
  if pathname url =? "/initiate" then initiate
  else if pathname url =? "/sign-part" then signPart url
  else if pathname url =? "/complete" then complete request
  else ret (withCors h notFound).

(** [fetch], lines 152-261. *)
Definition fetch (request : Request) : Response * list Call :=
  if method request =? "OPTIONS" then (preflight, [])
  else
    match route request with
    | (log, inr response) => (response, log)
    | (log, inl err) => (withCors h (errorResponse err), log)
    end.

End Handler.

End Revision2.

(** What the proofs of the further properties speak of. *)
Module Shapes.

Import Js Http S3 Worker.

(** The responses the handler of [src/index.ts] builds before
    [withCors]. *)
Inductive Built : Response -> Prop :=
| BuiltMissingParameters : Built missingParameters
| BuiltInvalidRequestBody : Built invalidRequestBody
| BuiltNotFound : Built notFound
| BuiltError (err : Error) : Built (errorResponse err)
| BuiltJson (props : list (string * value)) :
    Built (new_Response (Some (FromString (JSON_stringify props))) jsonHeaders).

(** A computation whose responses are [withCors] of a built response. *)
Definition wrapsBuilt (h : Host) (m : M Response) : Prop :=
  forall r, snd m = inr r -> exists r0, Built r0 /\ r = withCors h r0.

(** [m2] is [m1] with [withCors] on the response it ends with. *)
Definition lifted (h : Host) (m1 m2 : M Response) : Prop :=
  m2 = bind m1 (fun r => ret (withCors h r)).

(** The three headers [withCors] sets, on a list of headers. *)
Definition corsHeaders (hs : Headers) : Headers :=
  set (set (set hs "Access-Control-Allow-Origin" "*")
         "Access-Control-Allow-Methods" "GET,POST,OPTIONS")
    "Access-Control-Allow-Headers" "Content-Type".

(** The content type that goes with a body. *)
Definition contentTypeOf (b : option Text) : option string :=
  match b with
  | Some (Json _) => Some "application/json"
  | Some (Plain _) => Some "text/plain;charset=UTF-8"
  | None => None
  end.

(** The element of [MultipartUpload.Parts] an entry of [parts] that is not
    [null] becomes: its [etag] and [partNumber] members if it is an object
    that has them, [undefined] otherwise. *)
Definition entryOf (p : JSON) : CompletedPart :=
  match p with
  | JObj props => {| ETag := assoc "etag" props; PartNumber := assoc "partNumber" props |}
  | _ => {| ETag := undefined; PartNumber := undefined |}
  end.

Definition isNull (v : JSON) : bool :=
  match v with JNull => true | _ => false end.

Definition isArray (v : JSON) : bool :=
  match v with JArr _ => true | _ => false end.

Definition isObject (v : JSON) : bool :=
  match v with JObj _ => true | _ => false end.







End Shapes.

(** What the handler writes to the console about a signed URL. *)
Module Console.

(** The second argument of the [console.log] of line 94,
    [signedUrl.substring(0, 60) + "..."]. *)
Definition signedUrlForLog (signedUrl : string) : string :=
  substring 0 60 signedUrl ++ "...".

End Console.

(* ================================================================== *)
(** ** Properties *)
(* ================================================================== *)

Import Js Http S3 Worker Observe.

(** *** [Number] on sample query parameters *)

Example Number_examples :
  Js.Number None = Js.Finite false 0 0 /\
  Js.Number (Some "") = Js.Finite false 0 0 /\
  Js.Number (Some " 12 ") = Js.Finite false 12 0 /\
  Js.Number (Some "-1") = Js.Finite true 1 0 /\
  Js.Number (Some "abc") = Js.NaN /\
  Js.Number (Some "1.5e3") = Js.Finite false 15 2 /\
  Js.Number (Some ".5") = Js.Finite false 5 (-1) /\
  Js.Number (Some "5.") = Js.Finite false 5 0 /\
  Js.Number (Some ".") = Js.NaN /\
  Js.Number (Some "0x1F") = Js.Finite false 31 0 /\
  Js.Number (Some "-0x1F") = Js.NaN /\
  Js.Number (Some "0x") = Js.NaN /\
  Js.Number (Some "1e") = Js.NaN /\
  Js.Number (Some "-Infinity") = Js.Infinity true /\
  Js.Number (Some "12px") = Js.NaN /\
  Js.Number (Some "1 2") = Js.NaN /\
  Js.numberToBoolean (Js.Number (Some "1e-400")) = false /\
  Js.numberToBoolean (Js.Number (Some "5e-324")) = true /\
  Js.numberToBoolean (Js.Number (Some "3e-324")) = true /\
  Js.numberToBoolean (Js.Number (Some "2e-324")) = false /\
  Js.numberToBoolean (Js.Number (Some "-0")) = false.
Proof. vm_compute. repeat split. Qed.

Example leb_examples :
  Js.leb (Js.ofZ 1) (Js.ofZ 2) = true /\
  Js.leb (Js.ofZ 2) (Js.ofZ 1) = false /\
  Js.leb (Js.ofZ (-3)) (Js.ofZ 2) = true /\
  Js.leb (Js.Number (Some "1.5")) (Js.ofZ 2) = true /\
  Js.leb (Js.Number (Some "25e-1")) (Js.ofZ 2) = false /\
  Js.leb Js.NaN (Js.ofZ 2) = false /\
  Js.leb (Js.ofZ 2) (Js.Infinity false) = true /\
  Js.ascending [Js.ofZ 1; Js.ofZ 2; Js.ofZ 5] = true /\
  Js.ascending [Js.ofZ 1; Js.ofZ 5; Js.ofZ 2] = false.
Proof. vm_compute. repeat split. Qed.

Lemma numberToBoolean_ofNat (n : nat) :
  numberToBoolean (ofNat n) = negb (n =? 0)%nat.
Proof.
  unfold numberToBoolean, ofNat, isZero, isNaN.
  change (0 <? 0)%Z with false.
  rewrite andb_false_l, orb_false_r, orb_false_l.
  f_equal. destruct n as [|n]; [reflexivity|].
  apply N.eqb_neq. lia.
Qed.

(** *** Headers *)

Section HeadersFacts.

Lemma getRaw_setRaw_same (hs : Headers) (n v : string) :
  getRaw (setRaw hs n v) n = Some v.
Proof.
  induction hs as [|[k w] r IH]; simpl.
  - now rewrite String.eqb_refl.
  - destruct (k =? n) eqn:E; simpl; rewrite E; [reflexivity | exact IH].
Qed.

Lemma getRaw_setRaw_other (hs : Headers) (n m v : string) :
  (n =? m) = false -> getRaw (setRaw hs n v) m = getRaw hs m.
Proof.
  intros Hnm.
  induction hs as [|[k w] r IH]; simpl.
  - now rewrite Hnm.
  - destruct (k =? n) eqn:E; simpl.
    + apply String.eqb_eq in E. subst k. now rewrite Hnm.
    + destruct (k =? m); [reflexivity | exact IH].
Qed.

End HeadersFacts.

(** *** [withCors] *)

Section WithCorsFacts.

Variable h : Host.

Lemma withCors_headers (r : Response) :
  headers (withCors h r) =
  set (set (set (headers r) "Access-Control-Allow-Origin" "*")
         "Access-Control-Allow-Methods" "GET,POST,OPTIONS")
    "Access-Control-Allow-Headers" "Content-Type".
Proof.
  unfold withCors, new_Response, bodyStream; simpl.
  destruct (body r); reflexivity.
Qed.

Lemma withCors_carriesCors (r : Response) : carriesCors (withCors h r).
Proof.
  unfold carriesCors. rewrite withCors_headers. unfold get, set.
  change (lower "Access-Control-Allow-Origin") with "access-control-allow-origin".
  change (lower "Access-Control-Allow-Methods") with "access-control-allow-methods".
  change (lower "Access-Control-Allow-Headers") with "access-control-allow-headers".
  repeat split.
  - rewrite !getRaw_setRaw_other by reflexivity. apply getRaw_setRaw_same.
  - rewrite getRaw_setRaw_other by reflexivity. apply getRaw_setRaw_same.
  - apply getRaw_setRaw_same.
Qed.

Lemma withCors_body (r : Response) : body (withCors h r) = body r.
Proof.
  unfold withCors, new_Response, bodyStream; simpl.
  now destruct (body r).
Qed.

(** The status survives [withCors] only where the spread hands it over;
    otherwise the rebuilt response has the constructor's default. *)
Lemma withCors_status (r : Response) :
  status (withCors h r) = if responseOwnProperties h then status r else 200%N.
Proof.
  unfold withCors, new_Response, withHeaders, spread; simpl.
  now destruct (responseOwnProperties h).
Qed.

End WithCorsFacts.

(** *** The log of a computation *)

Section LogFacts.

Variable h : Host.

Lemma quiet_ret {A} (a : A) : quiet (ret a).
Proof. reflexivity. Qed.

Lemma quiet_throw {A} (e : Error) : quiet (@throw A e).
Proof. reflexivity. Qed.

Lemma quiet_lift {A} (r : Error + A) : quiet (lift r).
Proof. reflexivity. Qed.

Lemma quiet_bind {A B} (m : M A) (f : A -> M B) :
  quiet m -> (forall a, quiet (f a)) -> quiet (bind m f).
Proof.
  unfold quiet. destruct m as [log [e|a]]; simpl; intros Hm Hf; [exact Hm|].
  specialize (Hf a). destruct (f a) as [log' r]; simpl in *. now subst.
Qed.

Lemma quiet_oneShot {A} (m : M A) : quiet m -> oneShot h m.
Proof. now left. Qed.

Lemma oneShot_bind {A B} (m : M A) (f : A -> M B) :
  quiet m -> (forall a, oneShot h (f a)) -> oneShot h (bind m f).
Proof.
  unfold quiet. destruct m as [log [e|a]]; simpl; intros Hm Hf.
  - now left.
  - subst log. specialize (Hf a). destruct (f a) as [log' r]. exact Hf.
Qed.

Lemma oneShot_send {B} (c : Command) (f : Output -> M B) :
  (forall a, quiet (f a)) -> oneShot h (bind (s3_send h c) f).
Proof.
  intros Hf. right. exists (Send c). unfold s3_send, bind, raised.
  destruct (send h c) as [e|a]; simpl.
  - split; [reflexivity|]. intros e' He. now inversion He.
  - specialize (Hf a). unfold quiet in Hf. destruct (f a) as [log' r]; simpl in *.
    subst log'. split; [reflexivity|]. intros e' He. discriminate He.
Qed.

Lemma oneShot_getSignedUrl {B} (c : Command) (t : N) (f : string -> M B) :
  (forall a, quiet (f a)) -> oneShot h (bind (s3_getSignedUrl h c t) f).
Proof.
  intros Hf. right. exists (GetSignedUrl c t). unfold s3_getSignedUrl, bind, raised.
  destruct (getSignedUrl h c t) as [e|a]; simpl.
  - split; [reflexivity|]. intros e' He. now inversion He.
  - specialize (Hf a). unfold quiet in Hf. destruct (f a) as [log' r]; simpl in *.
    subst log'. split; [reflexivity|]. intros e' He. discriminate He.
Qed.

Lemma quiet_mapM {A B} (f : A -> M B) (l : list A) :
  (forall a, quiet (f a)) -> quiet (mapM f l).
Proof.
  intros Hf. induction l as [|x r IH]; simpl.
  - apply quiet_ret.
  - apply quiet_bind; [apply Hf|]. intros y.
    apply quiet_bind; [exact IH|]. intros ys. apply quiet_ret.
Qed.

Lemma wrapped_ret (r0 : Response) : wrapped h (ret (withCors h r0)).
Proof. intros r Hr. inversion Hr. now exists r0. Qed.

Lemma wrapped_bind {A} (m : M A) (f : A -> M Response) :
  (forall a, wrapped h (f a)) -> wrapped h (bind m f).
Proof.
  unfold wrapped. destruct m as [log [e|a]]; simpl; intros Hf r Hr.
  - discriminate Hr.
  - specialize (Hf a). destruct (f a) as [log' r']. simpl in *. now apply Hf.
Qed.

End LogFacts.

Create HintDb handler.

#[local] Hint Resolve quiet_ret quiet_throw quiet_lift quiet_bind quiet_mapM
  quiet_oneShot oneShot_bind oneShot_send oneShot_getSignedUrl
  wrapped_ret wrapped_bind : handler.

(** *** The three phases, each at most one storage operation *)

Section RouteFacts.

Variable h : Host.

Ltac step :=
  first
    [ apply quiet_oneShot, quiet_ret
    | apply wrapped_ret
    | apply oneShot_send; intros; apply quiet_ret
    | apply oneShot_getSignedUrl; intros; apply quiet_ret
    | apply oneShot_bind; [solve [auto with handler] | intros]
    | apply wrapped_bind; intros
    | match goal with |- context [if ?b then _ else _] => destruct b end ].

Lemma quiet_toCompletedPart (p : JSON) : quiet (toCompletedPart h p).
Proof. unfold toCompletedPart. auto 6 with handler. Qed.

Lemma quiet_parts_map (parts : value) : quiet (parts_map h parts (toCompletedPart h)).
Proof.
  unfold parts_map.
  destruct parts as [[| | | |items|]|]; try apply quiet_throw.
  apply quiet_mapM, quiet_toCompletedPart.
Qed.

Lemma initiate_oneShot : oneShot h (initiate h).
Proof. unfold initiate. repeat step. Qed.

Lemma signPart_oneShot (u : URL) : oneShot h (signPart h u).
Proof. unfold signPart. repeat step. Qed.

Lemma complete_oneShot (request : Request) : oneShot h (complete h request).
Proof.
  unfold complete.
  repeat step.
  apply oneShot_bind; [apply quiet_parts_map | intros]. repeat step.
Qed.

Lemma route_oneShot (request : Request) : oneShot h (route h request).
Proof.
  unfold route.
  destruct (_ =? "/initiate"); [apply initiate_oneShot|].
  destruct (_ =? "/sign-part"); [apply signPart_oneShot|].
  destruct (_ =? "/complete"); [apply complete_oneShot|].
  apply quiet_oneShot, quiet_ret.
Qed.

Lemma route_wrapped (request : Request) : wrapped h (route h request).
Proof.
  unfold route, initiate, signPart, complete. repeat step.
Qed.

Lemma fetch_preflight (request : Request) :
  method request = "OPTIONS" -> fetch h request = (preflight, []).
Proof. unfold fetch. now intros ->. Qed.

Lemma fetch_route (request : Request) :
  (method request =? "OPTIONS") = false ->
  fetch h request =
  match route h request with
  | (log, inr response) => (response, log)
  | (log, inl err) => (withCors h (errorResponse err), log)
  end.
Proof. unfold fetch. now intros ->. Qed.

(** The log of [fetch] is the log of the [try] body. *)
Lemma fetch_log (request : Request) :
  (method request =? "OPTIONS") = false ->
  snd (fetch h request) = fst (route h request).
Proof.
  intros Hm. rewrite (fetch_route _ Hm).
  now destruct (route h request) as [log [e|r]].
Qed.

(** What the [try] body throws is answered by the [catch]. *)
Lemma fetch_caught (request : Request) (err : Error) :
  (method request =? "OPTIONS") = false ->
  snd (route h request) = inl err ->
  fetch h request = (withCors h (errorResponse err), fst (route h request)).
Proof.
  intros Hm Hr. rewrite (fetch_route _ Hm).
  destruct (route h request) as [log [e|r]]; simpl in *; congruence.
Qed.

(** X2.  A storage operation that throws is the only one of the request
    (nothing is retried), and the response is the [catch]'s for what it
    threw: [withCors] of the response built with status 500 whose body
    carries the error's message and stack. *)
Lemma backend_error_caught (request : Request) (c : Call) (e : Error) :
  In c (snd (fetch h request)) ->
  raised h c = Some e ->
  fetch h request = (withCors h (errorResponse e), [c]).
Proof.
  intros Hin He.
  destruct (method request =? "OPTIONS") eqn:Hm.
  - apply String.eqb_eq in Hm. rewrite (fetch_preflight _ Hm) in Hin. destruct Hin.
  - rewrite (fetch_log _ Hm) in Hin.
    destruct (route_oneShot request) as [Hq | (c' & Hlog & Hthrow)].
    + rewrite Hq in Hin. destruct Hin.
    + rewrite Hlog in Hin. destruct Hin as [-> | []].
      rewrite (fetch_caught _ e Hm (Hthrow e He)). now rewrite Hlog.
Qed.

End RouteFacts.

(* ------------------------------------------------------------------ *)
(** *** Cross-origin headers and the preflight answer *)
(* ------------------------------------------------------------------ *)

Lemma preflight_carriesCors : carriesCors preflight.
Proof. unfold carriesCors. repeat split. Qed.

(** C9.  Every response of [fetch] carries the three cross-origin headers,
    [Access-Control-Allow-Origin: *],
    [Access-Control-Allow-Methods: GET,POST,OPTIONS] and
    [Access-Control-Allow-Headers: Content-Type]: the preflight answer has
    them from its constructor, every other response leaves through
    [withCors], the [catch]'s included. *)
Theorem every_response_carries_cors (h : Host) (request : Request) :
  carriesCors (fst (fetch h request)).
Proof.
  destruct (method request =? "OPTIONS") eqn:Hm.
  - apply String.eqb_eq in Hm. rewrite (fetch_preflight h _ Hm).
    exact preflight_carriesCors.
  - rewrite (fetch_route h _ Hm).
    pose proof (route_wrapped h request) as Hw. unfold wrapped in Hw.
    destruct (route h request) as [log [e|r]]; simpl in *.
    + apply withCors_carriesCors.
    + destruct (Hw r eq_refl) as [r0 ->]. apply withCors_carriesCors.
Qed.

(** C8.  An [OPTIONS] request to any path is answered with status 200, no
    body and the three cross-origin headers, and no storage operation is
    made, whatever the storage client would have done. *)
Theorem options_preflight (h : Host) (request : Request) :
  method request = "OPTIONS" ->
  is2xx (status (fst (fetch h request))) = true /\
  body (fst (fetch h request)) = None /\
  carriesCors (fst (fetch h request)) /\
  snd (fetch h request) = [].
Proof.
  intros Hm. rewrite (fetch_preflight h _ Hm). simpl.
  repeat split.
Qed.

Lemma options_preflight_witness :
  let h := Scenario.failing false in
  let request := Scenario.request "OPTIONS" "/complete" [] in
  is2xx (status (fst (fetch h request))) = true /\
  body (fst (fetch h request)) = None /\
  carriesCors (fst (fetch h request)) /\
  snd (fetch h request) = [].
Proof.
  exact (options_preflight (Scenario.failing false)
           (Scenario.request "OPTIONS" "/complete" []) eq_refl).
Defined.

(* ------------------------------------------------------------------ *)
(** *** The [catch] *)
(* ------------------------------------------------------------------ *)

(** C10.  Whatever the [try] body throws, the response is the one the
    [catch] builds with status 500, and its body is the JSON text of an
    object with the exception's message under [error] and its whole stack
    trace under [stack]. *)
Theorem thrown_exception_body_has_stack (h : Host) (request : Request) (err : Error) :
  (method request =? "OPTIONS") = false ->
  snd (route h request) = inl err ->
  fst (fetch h request) = withCors h (errorResponse err) /\
  status (errorResponse err) = 500%N /\
  body (fst (fetch h request)) =
    Some (Json (JObj [("error", JStr (message err)); ("stack", JStr (stack err))])) /\
  responseField (fst (fetch h request)) "error" = Some (JStr (message err)) /\
  responseField (fst (fetch h request)) "stack" = Some (JStr (stack err)).
Proof.
  intros Hm Hr. rewrite (fetch_caught h _ err Hm Hr). simpl fst.
  unfold responseField. rewrite withCors_body.
  repeat split.
Qed.

Lemma thrown_exception_body_has_stack_witness :
  let h := Scenario.standard in
  let request := Scenario.post "/complete" JNull in
  let err := TypeError Scenario.stackOf "Cannot read properties of null (reading 'key')" in
  fst (fetch h request) = withCors h (errorResponse err) /\
  status (errorResponse err) = 500%N /\
  body (fst (fetch h request)) =
    Some (Json (JObj [("error", JStr (message err)); ("stack", JStr (stack err))])) /\
  responseField (fst (fetch h request)) "error" = Some (JStr (message err)) /\
  responseField (fst (fetch h request)) "stack" = Some (JStr (stack err)).
Proof.
  exact (thrown_exception_body_has_stack Scenario.standard
           (Scenario.post "/complete" JNull)
           (TypeError Scenario.stackOf "Cannot read properties of null (reading 'key')")
           eq_refl eq_refl).
Defined.

(* ------------------------------------------------------------------ *)
(** *** Initiate *)
(* ------------------------------------------------------------------ *)

Lemma initiate_run (h : Host) :
  let key := "uploads/" ++ randomUUID h ++ ".mp4" in
  let command := CreateMultipartUploadCommand "large-video-uploads" key in
  initiate h =
  ([Send command],
   match send h command with
   | inl e => inl e
   | inr res =>
       inr (withCors h
              (new_Response
                 (Some (FromString (JSON_stringify
                    [("uploadId", option_map JStr (UploadId res));
                     ("key", Some (JStr key))])))
                 jsonHeaders))
   end).
Proof.
  unfold initiate, bind, s3_send. simpl.
  now destruct (send h _).
Qed.

(** C6.  An initiate call opens the session for the key
    ["uploads/" ++ id ++ ".mp4"], where [id] is the random identifier, and
    when the storage client answers, that key is the [key] of the response.
    The key is not empty, begins with [uploads/] and ends with [.mp4]. *)
Theorem initiate_key_shape (h : Host) (request : Request) :
  (method request =? "OPTIONS") = false ->
  pathname (url request) = "/initiate" ->
  let key := "uploads/" ++ randomUUID h ++ ".mp4" in
  snd (fetch h request) =
    [Send (CreateMultipartUploadCommand "large-video-uploads" key)] /\
  (forall res, send h (CreateMultipartUploadCommand "large-video-uploads" key) = inr res ->
     responseField (fst (fetch h request)) "key" = Some (JStr key)) /\
  (key =? "") = false /\
  String.prefix "uploads/" key = true /\
  endsWith key ".mp4".
Proof.
  intros Hm Hp key.
  assert (Hroute : route h request = initiate h)
    by (unfold route; now rewrite Hp).
  split; [|split; [|split; [|split]]].
  - rewrite (fetch_log h _ Hm), Hroute, initiate_run. reflexivity.
  - intros res Hres. rewrite (fetch_route h _ Hm), Hroute, initiate_run.
    fold key. rewrite Hres. simpl fst.
    unfold responseField. rewrite withCors_body. simpl.
    destruct (UploadId res); reflexivity.
  - reflexivity.
  - unfold key. simpl. now destruct (randomUUID h ++ ".mp4").
  - exists ("uploads/" ++ randomUUID h). reflexivity.
Qed.

Lemma initiate_key_shape_witness :
  let h := Scenario.standard in
  let request := Scenario.request "POST" "/initiate" [] in
  let key := "uploads/" ++ randomUUID h ++ ".mp4" in
  snd (fetch h request) =
    [Send (CreateMultipartUploadCommand "large-video-uploads" key)] /\
  (forall res, send h (CreateMultipartUploadCommand "large-video-uploads" key) = inr res ->
     responseField (fst (fetch h request)) "key" = Some (JStr key)) /\
  (key =? "") = false /\
  String.prefix "uploads/" key = true /\
  endsWith key ".mp4".
Proof.
  exact (initiate_key_shape Scenario.standard
           (Scenario.request "POST" "/initiate" []) eq_refl eq_refl).
Defined.

(* ------------------------------------------------------------------ *)
(** *** Authorize-Part *)
(* ------------------------------------------------------------------ *)

Section SignPartFacts.

Variable h : Host.
Variable u : URL.

Let key := searchParams_get (searchParams u) "key".
Let uploadId := searchParams_get (searchParams u) "uploadId".
Let partNumber := Number (searchParams_get (searchParams u) "partNumber").

(** The guard of line 86 holds: nothing is signed. *)
Lemma signPart_rejects :
  stringToBoolean key && stringToBoolean uploadId && numberToBoolean partNumber = false ->
  signPart h u = ([], inr (withCors h missingParameters)).
Proof.
  unfold signPart. fold key uploadId partNumber. intros Hg.
  rewrite <- !negb_andb, Hg. reflexivity.
Qed.

(** The guard of line 86 fails: the part is signed, for one hour. *)
Lemma signPart_signs :
  stringToBoolean key && stringToBoolean uploadId && numberToBoolean partNumber = true ->
  fst (signPart h u) =
  [GetSignedUrl (UploadPartCommand "large-video=uploads" key partNumber uploadId) 3600].
Proof.
  unfold signPart. fold key uploadId partNumber. intros Hg.
  rewrite <- !negb_andb, Hg. unfold bind, s3_getSignedUrl. simpl.
  now destruct (getSignedUrl h _ _).
Qed.

End SignPartFacts.

(** C2, as the code has it.  A [/sign-part] request in which [key] or
    [uploadId] is absent or empty, or [partNumber] is absent, not numeric
    ([Number] gives [NaN]) or zero, makes no storage operation and is
    answered by [withCors] of the response built with status 400 and the
    text [Missing parameters].  (A negative [partNumber] is not among
    these: it is truthy and goes on to be signed.) *)
Theorem sign_part_rejects_missing_parameters (h : Host) (request : Request) :
  (method request =? "OPTIONS") = false ->
  pathname (url request) = "/sign-part" ->
  (searchParams_get (searchParams (url request)) "key" = None \/
   searchParams_get (searchParams (url request)) "key" = Some "" \/
   searchParams_get (searchParams (url request)) "uploadId" = None \/
   searchParams_get (searchParams (url request)) "uploadId" = Some "" \/
   searchParams_get (searchParams (url request)) "partNumber" = None \/
   isNaN (Number (searchParams_get (searchParams (url request)) "partNumber")) = true \/
   isZero (Number (searchParams_get (searchParams (url request)) "partNumber")) = true) ->
  fetch h request = (withCors h missingParameters, []) /\
  status missingParameters = 400%N /\
  body (fst (fetch h request)) = Some (Plain "Missing parameters").
Proof.
  intros Hm Hp Hbad.
  assert (Hfetch : fetch h request = (withCors h missingParameters, [])).
  { rewrite (fetch_route h _ Hm). unfold route. rewrite Hp. simpl.
    rewrite signPart_rejects; [reflexivity|].
    destruct Hbad as [H|[H|[H|[H|[H|[H|H]]]]]]; rewrite ?H.
    - reflexivity.
    - reflexivity.
    - now rewrite andb_false_r.
    - now rewrite andb_false_r.
    - now rewrite andb_false_r.
    - unfold numberToBoolean. rewrite H. now rewrite andb_false_r.
    - unfold numberToBoolean. rewrite H, orb_true_r. now rewrite andb_false_r. }
  rewrite Hfetch. simpl fst. rewrite withCors_body. repeat split.
Qed.

Lemma sign_part_rejects_missing_parameters_witness :
  let h := Scenario.standard in
  let request := Scenario.signPart "0" in
  fetch h request = (withCors h missingParameters, []) /\
  status missingParameters = 400%N /\
  body (fst (fetch h request)) = Some (Plain "Missing parameters").
Proof.
  apply (sign_part_rejects_missing_parameters Scenario.standard (Scenario.signPart "0")).
  - reflexivity.
  - reflexivity.
  - do 6 right. vm_compute. reflexivity.
Defined.

(** C2 as stated fails: [partNumber=-1] is not positive, yet the guard
    lets it through ([-1] is truthy) and the signing operation is invoked
    with it; the answer is no 4xx, on either kind of host. *)
Lemma sign_part_negative_partNumber_is_signed :
  Number (Some "-1") = ofZ (-1) /\
  snd (fetch Scenario.standard (Scenario.signPart "-1")) =
    [GetSignedUrl
       (UploadPartCommand "large-video=uploads" (Some "uploads/abc.mp4")
          (ofZ (-1)) (Some "U1")) 3600] /\
  snd (fetch (Scenario.stub true) (Scenario.signPart "-1")) =
    [GetSignedUrl
       (UploadPartCommand "large-video=uploads" (Some "uploads/abc.mp4")
          (ofZ (-1)) (Some "U1")) 3600] /\
  is4xx (status (fst (fetch Scenario.standard (Scenario.signPart "-1")))) = false /\
  is4xx (status (fst (fetch (Scenario.stub true) (Scenario.signPart "-1")))) = false.
Proof. vm_compute. repeat split. Qed.

(* ------------------------------------------------------------------ *)
(** *** Complete *)
(* ------------------------------------------------------------------ *)

Section CompleteFacts.

Variable h : Host.

Lemma bind_value {A B} (a : A) (f : A -> M B) : bind ([], inr a) f = f a.
Proof. unfold bind. now destruct (f a). Qed.

Lemma bind_lift_value {A B} (a : A) (f : A -> M B) : bind (lift (inr a)) f = f a.
Proof. apply bind_value. Qed.

Lemma fst_bind_send {B} (c : Command) (g : Output -> B) :
  fst (bind (s3_send h c) (fun a => ret (g a))) = [Send c].
Proof. unfold bind, s3_send. now destruct (send h c). Qed.

(** A body that is no JSON text: [request.json()] throws, nothing else
    happens in the [try]. *)
Lemma complete_unparseable (request : Request) (err : Error) :
  json request = inl err -> complete h request = ([], inl err).
Proof. unfold complete. now intros ->. Qed.

Lemma Get_object (props : list (string * JSON)) (p : string) :
  Get (captureStackTrace h) (JObj props) p = inr (assoc p props).
Proof. reflexivity. Qed.

Lemma GetOptional_no_throw (v : value) (p : string) :
  exists len, GetOptional (captureStackTrace h) v p = inr len.
Proof. destruct v as [[| | | | |]|]; simpl; eauto. Qed.

Lemma complete_rejects (request : Request) (props : list (string * JSON)) :
  json request = inr (JObj props) ->
  invalidBody h props = true ->
  complete h request = ([], inr (withCors h invalidRequestBody)).
Proof.
  unfold complete, invalidBody. intros -> Hg.
  rewrite bind_lift_value, !Get_object, bind_lift_value.
  destruct (negb (ToBoolean (assoc "key" props))); [reflexivity|].
  rewrite bind_lift_value.
  destruct (negb (ToBoolean (assoc "uploadId" props))); [reflexivity|].
  rewrite bind_lift_value.
  destruct (GetOptional_no_throw (assoc "parts" props) "length") as [len Hlen].
  rewrite Hlen in *. rewrite bind_lift_value. simpl in Hg. now rewrite Hg.
Qed.

Lemma complete_accepts (request : Request) (props : list (string * JSON)) :
  json request = inr (JObj props) ->
  invalidBody h props = false ->
  complete h request =
  bind (parts_map h (assoc "parts" props) (toCompletedPart h))
    (fun Parts =>
       bind (s3_send h (CompleteMultipartUploadCommand "large-video-uploads"
                          (assoc "key" props) (assoc "uploadId" props) Parts))
         (fun result =>
            ret (withCors h
                   (new_Response
                      (Some (FromString (JSON_stringify
                         [("location", option_map JStr (Location result));
                          ("key", assoc "key" props)])))
                      jsonHeaders)))).
Proof.
  unfold complete, invalidBody. intros -> Hg.
  rewrite bind_lift_value, !Get_object, bind_lift_value.
  destruct (negb (ToBoolean (assoc "key" props))); [discriminate Hg|].
  rewrite bind_lift_value.
  destruct (negb (ToBoolean (assoc "uploadId" props))); [discriminate Hg|].
  rewrite bind_lift_value.
  destruct (GetOptional_no_throw (assoc "parts" props) "length") as [len Hlen].
  rewrite Hlen in *. rewrite bind_lift_value. simpl in Hg. now rewrite Hg.
Qed.

(** [map] over a manifest of the interface's shape reads every entry. *)
Lemma mapM_manifest (ps : list Client.Part) :
  mapM (toCompletedPart h) (map Client.partJSON ps) =
  ([], inr (map Client.toCompletedPart ps)).
Proof.
  induction ps as [|p r IH]; simpl; [reflexivity|].
  rewrite IH, bind_value. reflexivity.
Qed.

Lemma invalidBody_toJSON (r : Client.CompleteUploadRequest) :
  invalidBody h
    [("key", JStr (Client.key r)); ("uploadId", JStr (Client.uploadId r));
     ("parts", JArr (map Client.partJSON (Client.parts r)))] =
  (Client.key r =? "") || (Client.uploadId r =? "")
  || (List.length (Client.parts r) =? 0)%nat.
Proof.
  unfold invalidBody. simpl assoc. simpl GetOptional.
  unfold ToBoolean. rewrite numberToBoolean_ofNat, length_map.
  now rewrite !negb_involutive.
Qed.

End CompleteFacts.

(** C3, as the code has it.  A [/complete] request whose body is no JSON
    text makes no storage operation; the exception of [request.json()] is
    caught by the handler's one [catch], so the answer is the one built
    with status 500, not a 4xx, and its body carries the exception's
    message and stack. *)
Theorem complete_unparseable_body_caught (h : Host) (request : Request) (err : Error) :
  (method request =? "OPTIONS") = false ->
  pathname (url request) = "/complete" ->
  json request = inl err ->
  fetch h request = (withCors h (errorResponse err), []) /\
  status (errorResponse err) = 500%N /\
  body (fst (fetch h request)) =
    Some (Json (JObj [("error", JStr (message err)); ("stack", JStr (stack err))])).
Proof.
  intros Hm Hp Hj.
  assert (Hroute : route h request = ([], inl err)).
  { unfold route. rewrite Hp. simpl. now apply complete_unparseable. }
  assert (Hfetch : fetch h request = (withCors h (errorResponse err), [])).
  { rewrite (fetch_route h _ Hm), Hroute. reflexivity. }
  rewrite Hfetch. simpl fst. rewrite withCors_body. repeat split.
Qed.

Lemma complete_unparseable_body_caught_witness :
  let h := Scenario.standard in
  let request := Scenario.request "POST" "/complete" [] in
  let err := Scenario.syntaxError in
  fetch h request = (withCors h (errorResponse err), []) /\
  status (errorResponse err) = 500%N /\
  body (fst (fetch h request)) =
    Some (Json (JObj [("error", JStr (message err)); ("stack", JStr (stack err))])).
Proof.
  exact (complete_unparseable_body_caught Scenario.standard
           (Scenario.request "POST" "/complete" []) Scenario.syntaxError
           eq_refl eq_refl eq_refl).
Defined.

(** C3 as stated fails: a [/complete] request whose body is no JSON text
    is answered with status 500 where [withCors] keeps the status, and
    with status 200 where it does not; with a 4xx on neither. *)
Lemma complete_unparseable_body_is_no_4xx :
  json (Scenario.request "POST" "/complete" []) = inl Scenario.syntaxError /\
  status (fst (fetch (Scenario.stub true) (Scenario.request "POST" "/complete" []))) = 500%N /\
  is5xx (status (fst (fetch (Scenario.stub true) (Scenario.request "POST" "/complete" [])))) = true /\
  is4xx (status (fst (fetch (Scenario.stub true) (Scenario.request "POST" "/complete" [])))) = false /\
  is4xx (status (fst (fetch Scenario.standard (Scenario.request "POST" "/complete" [])))) = false.
Proof. vm_compute. repeat split. Qed.

(** A body that is JSON but not of the interface's shape is turned away
    only where the guard of line 109 sees it: [null] and a [parts] that is
    no array end in the [catch], while members of the wrong type that are
    truthy reach the storage client. *)
Example complete_bodies_of_another_shape :
  fetch Scenario.standard (Scenario.post "/complete" JNull) =
    (withCors Scenario.standard
       (errorResponse
          (TypeError Scenario.stackOf "Cannot read properties of null (reading 'key')")),
     []) /\
  fetch Scenario.standard
    (Scenario.post "/complete"
       (JObj [("key", JStr "k"); ("uploadId", JStr "u"); ("parts", JStr "e1")])) =
    (withCors Scenario.standard
       (errorResponse (TypeError Scenario.stackOf "body.parts.map is not a function")),
     []) /\
  snd (fetch Scenario.standard
         (Scenario.post "/complete"
            (JObj [("key", JNum (ofZ 1)); ("uploadId", JBool true);
                   ("parts", JArr [JNum (ofZ 1)])]))) =
    [Send (CompleteMultipartUploadCommand "large-video-uploads"
             (Some (JNum (ofZ 1))) (Some (JBool true))
             [{| ETag := undefined; PartNumber := undefined |}])].
Proof. vm_compute. repeat split. Qed.

(** C4, as the code has it.  For a [/complete] request whose body has the
    interface's shape with a non-empty [key], [uploadId] and [parts], the
    one storage operation is the completion command, and its parts are the
    manifest's entries in the manifest's own order ([map] and nothing
    else): ascending by part number exactly when the manifest is. *)
Theorem complete_forwards_manifest_order
  (h : Host) (request : Request) (r : Client.CompleteUploadRequest) :
  (method request =? "OPTIONS") = false ->
  pathname (url request) = "/complete" ->
  json request = inr (Client.toJSON r) ->
  (Client.key r =? "") = false ->
  (Client.uploadId r =? "") = false ->
  (List.length (Client.parts r) =? 0)%nat = false ->
  snd (fetch h request) =
    [Send (CompleteMultipartUploadCommand "large-video-uploads"
             (Some (JStr (Client.key r))) (Some (JStr (Client.uploadId r)))
             (map Client.toCompletedPart (Client.parts r)))] /\
  forwarded (snd (fetch h request)) = map Client.partNumber (Client.parts r) /\
  ascending (forwarded (snd (fetch h request))) =
    ascending (map Client.partNumber (Client.parts r)).
Proof.
  intros Hm Hp Hj Hk Hu Hn.
  assert (Hlog : snd (fetch h request) =
    [Send (CompleteMultipartUploadCommand "large-video-uploads"
             (Some (JStr (Client.key r))) (Some (JStr (Client.uploadId r)))
             (map Client.toCompletedPart (Client.parts r)))]).
  { rewrite (fetch_log h _ Hm). unfold route. rewrite Hp. simpl.
    rewrite (complete_accepts h request _ Hj)
      by (rewrite invalidBody_toJSON, Hk, Hu, Hn; reflexivity).
    simpl assoc. unfold parts_map.
    rewrite mapM_manifest, bind_value. apply fst_bind_send. }
  assert (Hfw : forwarded (snd (fetch h request)) = map Client.partNumber (Client.parts r)).
  { rewrite Hlog. unfold forwarded, forwardedPartNumbers. simpl.
    rewrite app_nil_r, map_map. reflexivity. }
  repeat split; [exact Hlog | exact Hfw | now rewrite Hfw].
Qed.

Lemma complete_forwards_manifest_order_witness :
  let h := Scenario.standard in
  let r := Scenario.manifest [Scenario.part "e1" 1; Scenario.part "e2" 2] in
  let request := Scenario.post "/complete" (Client.toJSON r) in
  snd (fetch h request) =
    [Send (CompleteMultipartUploadCommand "large-video-uploads"
             (Some (JStr (Client.key r))) (Some (JStr (Client.uploadId r)))
             (map Client.toCompletedPart (Client.parts r)))] /\
  forwarded (snd (fetch h request)) = map Client.partNumber (Client.parts r) /\
  ascending (forwarded (snd (fetch h request))) =
    ascending (map Client.partNumber (Client.parts r)).
Proof.
  exact (complete_forwards_manifest_order Scenario.standard
           (Scenario.post "/complete"
              (Client.toJSON (Scenario.manifest [Scenario.part "e1" 1; Scenario.part "e2" 2])))
           (Scenario.manifest [Scenario.part "e1" 1; Scenario.part "e2" 2])
           eq_refl eq_refl eq_refl eq_refl eq_refl eq_refl).
Defined.

(** C4 as stated fails: the manifest [(e2, 2), (e1, 1)] is forwarded as
    it came, part 2 before part 1. *)
Lemma complete_forwards_descending_manifest :
  forwarded
    (snd (fetch Scenario.standard
            (Scenario.post "/complete"
               (Client.toJSON
                  (Scenario.manifest [Scenario.part "e2" 2; Scenario.part "e1" 1])))))
  = [ofZ 2; ofZ 1] /\
  ascending
    (forwarded
       (snd (fetch Scenario.standard
               (Scenario.post "/complete"
                  (Client.toJSON
                     (Scenario.manifest [Scenario.part "e2" 2; Scenario.part "e1" 1]))))))
  = false.
Proof. vm_compute. repeat split. Qed.

(** X1.  A parsed object without a usable [key] or [uploadId], or with an
    empty [parts] list, is turned away before any storage operation: the
    answer is [withCors] of the response built with status 400 and the
    text [Invalid request body]. *)
Lemma complete_invalid_body_rejected
  (h : Host) (request : Request) (props : list (string * JSON)) :
  (method request =? "OPTIONS") = false ->
  pathname (url request) = "/complete" ->
  json request = inr (JObj props) ->
  (assoc "key" props = None \/ assoc "key" props = Some (JStr "") \/
   assoc "uploadId" props = None \/ assoc "uploadId" props = Some (JStr "") \/
   assoc "parts" props = Some (JArr [])) ->
  fetch h request = (withCors h invalidRequestBody, []) /\
  status invalidRequestBody = 400%N /\
  body (fst (fetch h request)) = Some (Plain "Invalid request body").
Proof.
  intros Hm Hp Hj Hbad.
  assert (Hfetch : fetch h request = (withCors h invalidRequestBody, [])).
  { rewrite (fetch_route h _ Hm). unfold route. rewrite Hp. simpl.
    rewrite (complete_rejects h request props Hj); [reflexivity|].
    unfold invalidBody.
    destruct Hbad as [H|[H|[H|[H|H]]]]; rewrite H; simpl;
      rewrite ?orb_true_r; reflexivity. }
  rewrite Hfetch. simpl fst. rewrite withCors_body. repeat split.
Qed.

(** The status [withCors] delivers for that rejection. *)
Lemma complete_invalid_body_status
  (h : Host) (request : Request) (props : list (string * JSON)) :
  (method request =? "OPTIONS") = false ->
  pathname (url request) = "/complete" ->
  json request = inr (JObj props) ->
  invalidBody h props = true ->
  status (fst (fetch h request)) = if responseOwnProperties h then 400%N else 200%N.
Proof.
  intros Hm Hp Hj Hg.
  rewrite (fetch_route h _ Hm). unfold route. rewrite Hp. simpl.
  rewrite (complete_rejects h request props Hj Hg). simpl fst.
  apply withCors_status.
Qed.

(** C5 at a failing input.  The body
    [{"key": "uploads/abc.mp4", "uploadId": "U1", "parts": []}] is rejected
    without a storage operation, by a response built with status 400; on a
    host that follows the Fetch standard [withCors] rebuilds it from
    [{ ...response, headers }], which holds no status, and what is
    delivered has status 200. *)
Theorem complete_empty_parts_delivered_as_200 :
  fetch Scenario.standard
    (Scenario.post "/complete" (Client.toJSON (Scenario.manifest []))) =
    (withCors Scenario.standard invalidRequestBody, []) /\
  status invalidRequestBody = 400%N /\
  status (withCors Scenario.standard invalidRequestBody) = 200%N /\
  is4xx (status (fst (fetch Scenario.standard
           (Scenario.post "/complete" (Client.toJSON (Scenario.manifest [])))))) = false.
Proof. vm_compute. repeat split. Qed.

(** C7 at a failing input.  The storage client raises "session not found"
    on the completion command: that is the only storage operation, and the
    response built by the [catch] has status 500 and the message under
    [error]; on a host that follows the Fetch standard [withCors] delivers
    it with status 200. *)
Theorem backend_error_delivered_as_200 :
  let h := Scenario.failing false in
  let request :=
    Scenario.post "/complete"
      (Client.toJSON (Scenario.manifest [Scenario.part "e1" 1])) in
  let c :=
    Send (CompleteMultipartUploadCommand "large-video-uploads"
            (Some (JStr "uploads/abc.mp4")) (Some (JStr "U1"))
            [Client.toCompletedPart (Scenario.part "e1" 1)]) in
  raised h c = Some Scenario.sessionNotFound /\
  fetch h request = (withCors h (errorResponse Scenario.sessionNotFound), [c]) /\
  responseField (fst (fetch h request)) "error" = Some (JStr "session not found") /\
  status (errorResponse Scenario.sessionNotFound) = 500%N /\
  status (fst (fetch h request)) = 200%N /\
  is5xx (status (fst (fetch h request))) = false.
Proof. vm_compute. repeat split. Qed.

(** C1 at a failing input.  The bucket of the storage operation of each
    phase: [/sign-part] names [large-video=uploads], the other two
    [large-video-uploads]. *)
Theorem bucket_differs_in_sign_part :
  buckets (snd (fetch Scenario.standard (Scenario.request "POST" "/initiate" []))) =
    ["large-video-uploads"] /\
  buckets (snd (fetch Scenario.standard (Scenario.signPart "1"))) =
    ["large-video=uploads"] /\
  buckets (snd (fetch Scenario.standard
                  (Scenario.post "/complete"
                     (Client.toJSON (Scenario.manifest [Scenario.part "e1" 1]))))) =
    ["large-video-uploads"] /\
  ("large-video=uploads" =? "large-video-uploads") = false.
Proof. vm_compute. repeat split. Qed.

(* ------------------------------------------------------------------ *)
(** *** The bucket of every storage operation *)
(* ------------------------------------------------------------------ *)

Section BucketFacts.

Variable h : Host.
Variable P : Call -> Prop.

Lemma log_quiet {A} (m : M A) : quiet m -> Forall P (fst m).
Proof. unfold quiet. intros ->. constructor. Qed.

Lemma log_bind {A B} (m : M A) (f : A -> M B) :
  Forall P (fst m) -> (forall a, Forall P (fst (f a))) -> Forall P (fst (bind m f)).
Proof.
  destruct m as [log [e|a]]; simpl; intros Hm Hf; [exact Hm|].
  specialize (Hf a). destruct (f a) as [log' r]; simpl in *.
  apply Forall_app. now split.
Qed.

Lemma log_send {B} (c : Command) (g : Output -> B) :
  P (Send c) -> Forall P (fst (bind (s3_send h c) (fun a => ret (g a)))).
Proof. intros Hc. rewrite fst_bind_send. now repeat constructor. Qed.

End BucketFacts.

(** X4.  Whatever the request, a storage operation of [/sign-part] names
    the bucket [large-video=uploads] and a storage operation of any other
    path names [large-video-uploads]. *)
Lemma bucket_by_phase (h : Host) (request : Request) (c : Call) :
  In c (snd (fetch h request)) ->
  Bucket (command c) =
  if pathname (url request) =? "/sign-part"
  then "large-video=uploads" else "large-video-uploads".
Proof.
  destruct (method request =? "OPTIONS") eqn:Hm.
  { apply String.eqb_eq in Hm. rewrite (fetch_preflight h _ Hm). intros []. }
  rewrite (fetch_log h _ Hm). revert c. apply Forall_forall.
  unfold route.
  destruct (pathname (url request) =? "/initiate") eqn:H1.
  { apply String.eqb_eq in H1. rewrite H1. simpl.
    unfold initiate. apply log_send. reflexivity. }
  destruct (pathname (url request) =? "/sign-part") eqn:H2.
  { unfold signPart.
    match goal with |- context [if ?b then _ else _] => destruct b end.
    - constructor.
    - unfold bind, s3_getSignedUrl.
      destruct (getSignedUrl h _ _); simpl; repeat constructor. }
  destruct (pathname (url request) =? "/complete") eqn:H3; [|constructor].
  unfold complete.
  repeat first
    [ apply log_send; reflexivity
    | apply log_bind; [apply log_quiet; first [apply quiet_lift | apply quiet_parts_map] | intros]
    | match goal with |- context [if ?b then _ else _] => destruct b end
    | constructor ].
Qed.

(* ------------------------------------------------------------------ *)
(** *** Further facts about the handler *)
(* ------------------------------------------------------------------ *)

(** X3.  [withCors] keeps the body and sets the three cross-origin
    headers; it keeps the status of a response exactly on a host where a
    response holds it as an own enumerable property; on a host that follows
    the Fetch standard the rebuilt response has status 200, whatever the
    status of the original. *)
Theorem withCors_delivered_status (h : Host) (r : Response) :
  status (withCors h r) = (if responseOwnProperties h then status r else 200%N) /\
  body (withCors h r) = body r /\
  carriesCors (withCors h r).
Proof.
  split; [apply withCors_status | split; [apply withCors_body | apply withCors_carriesCors]].
Qed.

Lemma complete_invalid_body_rejected_witness :
  let h := Scenario.standard in
  let request := Scenario.post "/complete" (Client.toJSON (Scenario.manifest [])) in
  fetch h request = (withCors h invalidRequestBody, []) /\
  status invalidRequestBody = 400%N /\
  body (fst (fetch h request)) = Some (Plain "Invalid request body").
Proof.
  apply (complete_invalid_body_rejected Scenario.standard
           (Scenario.post "/complete" (Client.toJSON (Scenario.manifest [])))
           [("key", JStr "uploads/abc.mp4"); ("uploadId", JStr "U1"); ("parts", JArr [])]).
  - reflexivity.
  - reflexivity.
  - reflexivity.
  - do 4 right. reflexivity.
Defined.

Lemma backend_error_caught_witness :
  let h := Scenario.failing true in
  let request := Scenario.signPart "1" in
  let c :=
    GetSignedUrl
      (UploadPartCommand "large-video=uploads" (Some "uploads/abc.mp4") (ofZ 1) (Some "U1"))
      3600 in
  fetch h request = (withCors h (errorResponse Scenario.sessionNotFound), [c]).
Proof.
  apply (backend_error_caught (Scenario.failing true) (Scenario.signPart "1")).
  - vm_compute. left. reflexivity.
  - reflexivity.
Defined.

Lemma bucket_by_phase_witness :
  Bucket
    (command
       (GetSignedUrl
          (UploadPartCommand "large-video=uploads" (Some "uploads/abc.mp4") (ofZ 1) (Some "U1"))
          3600)) =
  if pathname (url (Scenario.signPart "1")) =? "/sign-part"
  then "large-video=uploads" else "large-video-uploads".
Proof.
  apply (bucket_by_phase Scenario.standard (Scenario.signPart "1")).
  vm_compute. left. reflexivity.
Defined.

(* ------------------------------------------------------------------ *)
(** *** Negative part numbers *)
(* ------------------------------------------------------------------ *)











(* ================================================================== *)
(** ** Further properties of the handler of [src/index.ts] *)
(* ================================================================== *)

Import Shapes.

(** *** Every response is the preflight answer or [withCors] of a built one *)

Section BuiltFacts.

Variable h : Host.

Lemma wrapsBuilt_ret (r0 : Response) : Built r0 -> wrapsBuilt h (ret (withCors h r0)).
Proof. intros Hb r Hr. inversion Hr. now exists r0. Qed.

Lemma wrapsBuilt_bind {A} (m : M A) (f : A -> M Response) :
  (forall a, wrapsBuilt h (f a)) -> wrapsBuilt h (bind m f).
Proof.
  unfold wrapsBuilt. destruct m as [log [e|a]]; simpl; intros Hf r Hr.
  - discriminate Hr.
  - specialize (Hf a). destruct (f a) as [log' r']. simpl in *. now apply Hf.
Qed.

Lemma route_wrapsBuilt (request : Request) : wrapsBuilt h (route h request).
Proof.
  unfold route, initiate, signPart, complete.
  repeat first
    [ apply wrapsBuilt_ret; constructor
    | apply wrapsBuilt_bind; intros
    | match goal with |- context [if ?b then _ else _] => destruct b end ].
Qed.

Lemma fetch_response_cases (request : Request) :
  fst (fetch h request) = preflight \/
  exists r0, Built r0 /\ fst (fetch h request) = withCors h r0.
Proof.
  destruct (method request =? "OPTIONS") eqn:Hm.
  - left. apply String.eqb_eq in Hm. now rewrite (fetch_preflight h _ Hm).
  - right. rewrite (fetch_route h _ Hm).
    pose proof (route_wrapsBuilt request) as Hw. unfold wrapsBuilt in Hw.
    destruct (route h request) as [log [e|r]]; simpl in *.
    + exists (errorResponse e). split; [constructor | reflexivity].
    + exact (Hw r eq_refl).
Qed.

Lemma Built_status (r0 : Response) :
  Built r0 -> In (status r0) [200%N; 400%N; 404%N; 500%N].
Proof. intros [| | | e | props]; simpl; auto. Qed.

Lemma Built_contentType (r0 : Response) :
  Built r0 -> get (headers r0) "Content-Type" = contentTypeOf (body r0).
Proof. intros [| | | e | props]; reflexivity. Qed.

End BuiltFacts.

(** X6.  A request to a path other than [/initiate], [/sign-part] and
    [/complete] (and not a preflight) makes no storage operation and is
    answered by [withCors] of the response built with status 404 and the
    text [Not found]. *)
Theorem unknown_path_not_found (h : Host) (request : Request) :
  (method request =? "OPTIONS") = false ->
  (pathname (url request) =? "/initiate") = false ->
  (pathname (url request) =? "/sign-part") = false ->
  (pathname (url request) =? "/complete") = false ->
  fetch h request = (withCors h notFound, []) /\
  status notFound = 404%N /\
  body (fst (fetch h request)) = Some (Plain "Not found").
Proof.
  intros Hm H1 H2 H3.
  assert (Hfetch : fetch h request = (withCors h notFound, [])).
  { rewrite (fetch_route h _ Hm). unfold route. now rewrite H1, H2, H3. }
  rewrite Hfetch. simpl fst. rewrite withCors_body. repeat split.
Qed.

Lemma unknown_path_not_found_witness :
  let h := Scenario.failing true in
  let request := Scenario.request "GET" "/initiate/" [] in
  fetch h request = (withCors h notFound, []) /\
  status notFound = 404%N /\
  body (fst (fetch h request)) = Some (Plain "Not found").
Proof.
  exact (unknown_path_not_found (Scenario.failing true)
           (Scenario.request "GET" "/initiate/" []) eq_refl eq_refl eq_refl eq_refl).
Defined.

(** X7.  No request makes more than one storage operation: nothing is
    retried and no phase calls the storage client twice. *)
Theorem at_most_one_storage_operation (h : Host) (request : Request) :
  List.length (snd (fetch h request)) <= 1.
Proof.
  destruct (method request =? "OPTIONS") eqn:Hm.
  - apply String.eqb_eq in Hm. rewrite (fetch_preflight h _ Hm). simpl. lia.
  - rewrite (fetch_log h _ Hm).
    destruct (route_oneShot h request) as [-> | (c & -> & _)]; simpl; lia.
Qed.

(** X8.  The status of a delivered response is 200, 400, 404 or 500, and
    on a host that follows the Fetch standard it is 200 for every request,
    rejections and errors included: [withCors] is on the way of every
    response but the preflight answer. *)
Theorem delivered_status (h : Host) (request : Request) :
  In (status (fst (fetch h request))) [200%N; 400%N; 404%N; 500%N] /\
  (responseOwnProperties h = false -> status (fst (fetch h request)) = 200%N).
Proof.
  destruct (fetch_response_cases h request) as [-> | (r0 & Hb & ->)].
  - split; [now left | reflexivity].
  - rewrite withCors_status.
    destruct (responseOwnProperties h).
    + split; [now apply Built_status | discriminate].
    + split; [now left | reflexivity].
Qed.

(** X9.  Every response with a body names its content type,
    [application/json] for a JSON text and [text/plain;charset=UTF-8] for
    a plain text; the preflight answer has neither body nor content
    type. *)
Theorem content_type_follows_body (h : Host) (request : Request) :
  get (headers (fst (fetch h request))) "Content-Type" =
  contentTypeOf (body (fst (fetch h request))).
Proof.
  destruct (fetch_response_cases h request) as [-> | (r0 & Hb & ->)].
  - reflexivity.
  - rewrite withCors_body, <- (Built_contentType r0 Hb), withCors_headers.
    unfold get, set.
    change (lower "Access-Control-Allow-Origin") with "access-control-allow-origin".
    change (lower "Access-Control-Allow-Methods") with "access-control-allow-methods".
    change (lower "Access-Control-Allow-Headers") with "access-control-allow-headers".
    change (lower "Content-Type") with "content-type".
    now rewrite !getRaw_setRaw_other by reflexivity.
Qed.

(* ------------------------------------------------------------------ *)
(** *** What of a request each phase reads *)
(* ------------------------------------------------------------------ *)

(** X10.  The handler reads of the method only whether it is [OPTIONS],
    of the query only on [/sign-part] and of the body only on
    [/complete]: two requests to the same path that are no preflight get
    the same answer and make the same storage operation as soon as they
    agree on the query, if the path is [/sign-part], and on the body, if
    it is [/complete].  No path tells [GET] from [POST]. *)
Theorem request_parts_read (h : Host) (r1 r2 : Request) :
  (method r1 =? "OPTIONS") = false ->
  (method r2 =? "OPTIONS") = false ->
  pathname (url r1) = pathname (url r2) ->
  (pathname (url r1) = "/sign-part" -> searchParams (url r1) = searchParams (url r2)) ->
  (pathname (url r1) = "/complete" -> json r1 = json r2) ->
  fetch h r1 = fetch h r2.
Proof.
  intros H1 H2 Hp Hq Hj.
  rewrite (fetch_route h _ H1), (fetch_route h _ H2).
  assert (Hr : route h r1 = route h r2); [|now rewrite Hr].
  unfold route. rewrite <- Hp.
  destruct (pathname (url r1) =? "/initiate"); [reflexivity|].
  destruct (pathname (url r1) =? "/sign-part") eqn:Hs.
  - apply String.eqb_eq in Hs. unfold signPart. now rewrite (Hq Hs).
  - destruct (pathname (url r1) =? "/complete") eqn:Hc; [|reflexivity].
    apply String.eqb_eq in Hc. unfold complete. now rewrite (Hj Hc).
Qed.

Lemma request_parts_read_witness :
  fetch Scenario.standard
    (Scenario.request "DELETE" "/sign-part"
       [("key", "uploads/abc.mp4"); ("uploadId", "U1"); ("partNumber", "3")]) =
  fetch Scenario.standard
    {| method := "POST";
       url := {| pathname := "/sign-part";
                 searchParams :=
                   [("key", "uploads/abc.mp4"); ("uploadId", "U1"); ("partNumber", "3")] |};
       json := inr JNull |}.
Proof.
  apply request_parts_read; try reflexivity.
  intros Hc. discriminate Hc.
Defined.

(* ------------------------------------------------------------------ *)
(** *** Authorize-Part, the other paths through it *)
(* ------------------------------------------------------------------ *)

Lemma stringToBoolean_false (v : option string) :
  stringToBoolean v = false <-> v = None \/ v = Some "".
Proof.
  unfold stringToBoolean. destruct v as [s|]; simpl.
  - rewrite negb_false_iff, String.eqb_eq. split.
    + intros ->. now right.
    + intros [H|H]; [discriminate H | now inversion H].
  - split; [now left | reflexivity].
Qed.

Lemma numberToBoolean_false (n : number) :
  numberToBoolean n = false <-> isNaN n = true \/ isZero n = true.
Proof.
  unfold numberToBoolean. rewrite negb_false_iff. apply orb_true_iff.
Qed.

(** The guard of line 86, in words. *)
Lemma signPart_guard (key uploadId partNumber : option string) :
  stringToBoolean key && stringToBoolean uploadId
    && numberToBoolean (Number partNumber) = false <->
  (key = None \/ key = Some "" \/ uploadId = None \/ uploadId = Some "" \/
   partNumber = None \/
   isNaN (Number partNumber) = true \/ isZero (Number partNumber) = true).
Proof.
  rewrite !andb_false_iff, !stringToBoolean_false, numberToBoolean_false.
  split.
  - intros [[[H|H]|[H|H]]|[H|H]]; auto 8.
  - intros [H|[H|[H|[H|[H|[H|H]]]]]]; auto 6.
    right. right. now rewrite H.
Qed.

Lemma signPart_run (h : Host) (u : URL) :
  let key := searchParams_get (searchParams u) "key" in
  let uploadId := searchParams_get (searchParams u) "uploadId" in
  let partNumber := Number (searchParams_get (searchParams u) "partNumber") in
  let command := UploadPartCommand "large-video=uploads" key partNumber uploadId in
  stringToBoolean key && stringToBoolean uploadId && numberToBoolean partNumber = true ->
  signPart h u =
  ([GetSignedUrl command 3600],
   match getSignedUrl h command 3600 with
   | inl e => inl e
   | inr signedUrl =>
       inr (withCors h
              (new_Response
                 (Some (FromString (JSON_stringify [("signedUrl", Some (JStr signedUrl))])))
                 jsonHeaders))
   end).
Proof.
  intros key uploadId partNumber command Hg.
  unfold signPart. fold key uploadId partNumber.
  rewrite <- !negb_andb, Hg. unfold bind, s3_getSignedUrl. simpl. fold command.
  now destruct (getSignedUrl h command 3600).
Qed.

(** X11.  A [/sign-part] request that passes the guard is answered with
    the URL the signer returns, as the member [signedUrl] of a JSON body;
    the one storage operation is the signing of an [UploadPartCommand]
    that carries [key], [uploadId] and the converted [partNumber] as they
    came, for 3600 seconds. *)
Theorem sign_part_returns_signed_url
  (h : Host) (request : Request) (k u signedUrl : string) :
  (method request =? "OPTIONS") = false ->
  pathname (url request) = "/sign-part" ->
  searchParams_get (searchParams (url request)) "key" = Some k ->
  searchParams_get (searchParams (url request)) "uploadId" = Some u ->
  (k =? "") = false -> (u =? "") = false ->
  numberToBoolean (Number (searchParams_get (searchParams (url request)) "partNumber")) = true ->
  getSignedUrl h
    (UploadPartCommand "large-video=uploads" (Some k)
       (Number (searchParams_get (searchParams (url request)) "partNumber")) (Some u))
    3600 = inr signedUrl ->
  snd (fetch h request) =
    [GetSignedUrl
       (UploadPartCommand "large-video=uploads" (Some k)
          (Number (searchParams_get (searchParams (url request)) "partNumber")) (Some u))
       3600] /\
  body (fst (fetch h request)) = Some (Json (JObj [("signedUrl", JStr signedUrl)])) /\
  responseField (fst (fetch h request)) "signedUrl" = Some (JStr signedUrl).
Proof.
  intros Hm Hp Hk Hu Hk0 Hu0 Hn Hs.
  assert (Hroute : route h request =
    ([GetSignedUrl
        (UploadPartCommand "large-video=uploads" (Some k)
           (Number (searchParams_get (searchParams (url request)) "partNumber")) (Some u))
        3600],
     inr (withCors h
            (new_Response
               (Some (FromString (JSON_stringify [("signedUrl", Some (JStr signedUrl))])))
               jsonHeaders)))).
  { unfold route. rewrite Hp. simpl.
    rewrite signPart_run; rewrite Hk, Hu.
    - now rewrite Hs.
    - unfold stringToBoolean. simpl. now rewrite Hk0, Hu0, Hn. }
  rewrite (fetch_route h _ Hm), Hroute. simpl fst. simpl snd.
  unfold responseField. rewrite withCors_body. repeat split.
Qed.

Lemma sign_part_returns_signed_url_witness :
  let h := Scenario.standard in
  let request := Scenario.signPart "7" in
  snd (fetch h request) =
    [GetSignedUrl
       (UploadPartCommand "large-video=uploads" (Some "uploads/abc.mp4")
          (Number (searchParams_get (searchParams (url request)) "partNumber")) (Some "U1"))
       3600] /\
  body (fst (fetch h request)) =
    Some (Json (JObj [("signedUrl", JStr "https://r2.example/signed")])) /\
  responseField (fst (fetch h request)) "signedUrl" = Some (JStr "https://r2.example/signed").
Proof.
  apply (sign_part_returns_signed_url Scenario.standard (Scenario.signPart "7")
           "uploads/abc.mp4" "U1" "https://r2.example/signed"); reflexivity.
Defined.

(** X12.  The requests [/sign-part] turns away are exactly those with a
    [key] or [uploadId] that is absent or empty or a [partNumber] that is
    absent, not numeric or zero: a request makes no storage operation if
    and only if it is one of these.  Every other value of [partNumber] is
    signed, a fraction, [Infinity] or a hexadecimal literal included. *)
Theorem sign_part_rejects_exactly_missing (h : Host) (request : Request) :
  (method request =? "OPTIONS") = false ->
  pathname (url request) = "/sign-part" ->
  (snd (fetch h request) = [] <->
   (searchParams_get (searchParams (url request)) "key" = None \/
    searchParams_get (searchParams (url request)) "key" = Some "" \/
    searchParams_get (searchParams (url request)) "uploadId" = None \/
    searchParams_get (searchParams (url request)) "uploadId" = Some "" \/
    searchParams_get (searchParams (url request)) "partNumber" = None \/
    isNaN (Number (searchParams_get (searchParams (url request)) "partNumber")) = true \/
    isZero (Number (searchParams_get (searchParams (url request)) "partNumber")) = true)).
Proof.
  intros Hm Hp. rewrite <- signPart_guard.
  rewrite (fetch_log h _ Hm). unfold route. rewrite Hp. simpl.
  destruct (stringToBoolean _ && stringToBoolean _ && numberToBoolean _) eqn:Hg.
  - rewrite (signPart_signs h _ Hg). split; discriminate.
  - rewrite (signPart_rejects h _ Hg). split; reflexivity.
Qed.

Lemma sign_part_rejects_exactly_missing_witness :
  let request := Scenario.signPart "0x10" in
  snd (fetch Scenario.standard request) = [] <->
   (searchParams_get (searchParams (url request)) "key" = None \/
    searchParams_get (searchParams (url request)) "key" = Some "" \/
    searchParams_get (searchParams (url request)) "uploadId" = None \/
    searchParams_get (searchParams (url request)) "uploadId" = Some "" \/
    searchParams_get (searchParams (url request)) "partNumber" = None \/
    isNaN (Number (searchParams_get (searchParams (url request)) "partNumber")) = true \/
    isZero (Number (searchParams_get (searchParams (url request)) "partNumber")) = true).
Proof.
  exact (sign_part_rejects_exactly_missing Scenario.standard (Scenario.signPart "0x10")
           eq_refl eq_refl).
Defined.

Example sign_part_unusual_part_numbers :
  map (fun p => forallb (fun c => match command c with
                                  | UploadPartCommand _ _ n _ => numberToBoolean n
                                  | _ => false
                                  end)
                  (snd (fetch Scenario.standard (Scenario.signPart p))))
      ["1.5"; "Infinity"; "0x10"; "1e3"; " 2 "] = [true; true; true; true; true] /\
  map (fun p => List.length (snd (fetch Scenario.standard (Scenario.signPart p))))
      ["1.5"; "Infinity"; "0x10"; "1e3"; " 2 "; "one"; "0.0"; ""] =
    [1; 1; 1; 1; 1; 0; 0; 0].
Proof. vm_compute. split; reflexivity. Qed.






(* ------------------------------------------------------------------ *)
(** *** Complete, the other paths through it *)
(* ------------------------------------------------------------------ *)

Section CompleteRuns.

Variable h : Host.

Lemma toCompletedPart_entry (p : JSON) :
  isNull p = false -> Worker.toCompletedPart h p = ([], inr (entryOf p)).
Proof. destruct p; simpl; intros Hn; [discriminate Hn | reflexivity ..]. Qed.

Lemma mapM_entries (items : list JSON) :
  existsb isNull items = false ->
  mapM (Worker.toCompletedPart h) items = ([], inr (map entryOf items)).
Proof.
  induction items as [|p r IH]; simpl; [reflexivity|].
  intros Hn. apply orb_false_iff in Hn as [Hp Hr].
  rewrite (toCompletedPart_entry p Hp), bind_value, (IH Hr), bind_value. reflexivity.
Qed.

Lemma mapM_null (items : list JSON) :
  existsb isNull items = true ->
  mapM (Worker.toCompletedPart h) items =
  ([], inl (TypeError (captureStackTrace h)
              "Cannot read properties of null (reading 'etag')")).
Proof.
  induction items as [|p r IH]; simpl; [discriminate|].
  destruct (isNull p) eqn:Hp; simpl.
  - intros _. destruct p; try discriminate Hp. reflexivity.
  - intros Hr. rewrite (toCompletedPart_entry p Hp), bind_value, (IH Hr). reflexivity.
Qed.

(** The guard of line 109 lets through an object with a truthy [key] and
    [uploadId] whose [parts] is a non-empty array. *)
Lemma invalidBody_array (props : list (string * JSON)) (items : list JSON) :
  ToBoolean (assoc "key" props) = true ->
  ToBoolean (assoc "uploadId" props) = true ->
  assoc "parts" props = Some (JArr items) ->
  (List.length items =? 0)%nat = false ->
  invalidBody h props = false.
Proof.
  intros Hk Hu Hp Hn. unfold invalidBody. rewrite Hk, Hu, Hp. simpl.
  unfold ToBoolean. now rewrite numberToBoolean_ofNat, Hn.
Qed.

Lemma complete_run (request : Request) (props : list (string * JSON)) (items : list JSON) :
  json request = inr (JObj props) ->
  ToBoolean (assoc "key" props) = true ->
  ToBoolean (assoc "uploadId" props) = true ->
  assoc "parts" props = Some (JArr items) ->
  (List.length items =? 0)%nat = false ->
  existsb isNull items = false ->
  let command :=
    CompleteMultipartUploadCommand "large-video-uploads"
      (assoc "key" props) (assoc "uploadId" props) (map entryOf items) in
  complete h request =
  ([Send command],
   match send h command with
   | inl e => inl e
   | inr result =>
       inr (withCors h
              (new_Response
                 (Some (FromString (JSON_stringify
                    [("location", option_map JStr (Location result));
                     ("key", assoc "key" props)])))
                 jsonHeaders))
   end).
Proof.
  intros Hj Hk Hu Hp Hn Hnull command.
  rewrite (complete_accepts h request props Hj (invalidBody_array props items Hk Hu Hp Hn)).
  rewrite Hp. unfold parts_map. rewrite (mapM_entries items Hnull), bind_value.
  fold command. unfold bind, s3_send. now destruct (send h command).
Qed.

Lemma complete_throws (request : Request) (props : list (string * JSON)) (err : Error) :
  json request = inr (JObj props) ->
  invalidBody h props = false ->
  parts_map h (assoc "parts" props) (Worker.toCompletedPart h) = ([], inl err) ->
  complete h request = ([], inl err).
Proof.
  intros Hj Hg Hm. rewrite (complete_accepts h request props Hj Hg), Hm. reflexivity.
Qed.

Lemma fetch_complete (request : Request) :
  (method request =? "OPTIONS") = false ->
  pathname (url request) = "/complete" ->
  fetch h request =
  match complete h request with
  | (log, inr response) => (response, log)
  | (log, inl err) => (withCors h (errorResponse err), log)
  end.
Proof.
  intros Hm Hp. rewrite (fetch_route h _ Hm). unfold route. now rewrite Hp.
Qed.

End CompleteRuns.

(** X14.  For a [/complete] request whose body is an object with a truthy
    [key] and [uploadId] and a non-empty [parts] array without [null], the
    one storage operation is the completion command for that [key] and
    [uploadId], and its parts are the entries of [parts], as many and in
    the same order, each reduced to its [etag] and [partNumber] members:
    other members of an entry are dropped, a missing member goes out as
    [undefined]. *)
Theorem complete_forwards_entries
  (h : Host) (request : Request) (props : list (string * JSON)) (items : list JSON) :
  (method request =? "OPTIONS") = false ->
  pathname (url request) = "/complete" ->
  json request = inr (JObj props) ->
  ToBoolean (assoc "key" props) = true ->
  ToBoolean (assoc "uploadId" props) = true ->
  assoc "parts" props = Some (JArr items) ->
  (List.length items =? 0)%nat = false ->
  existsb isNull items = false ->
  snd (fetch h request) =
    [Send (CompleteMultipartUploadCommand "large-video-uploads"
             (assoc "key" props) (assoc "uploadId" props) (map entryOf items))].
Proof.
  intros Hm Hp Hj Hk Hu Hparts Hn Hnull.
  rewrite (fetch_complete h _ Hm Hp), (complete_run h _ props items Hj Hk Hu Hparts Hn Hnull).
  now destruct (send h _).
Qed.

Lemma complete_forwards_entries_witness :
  let props :=
    [("parts", JArr [JObj [("partNumber", JNum (ofZ 2)); ("size", JNum (ofZ 5))];
                     JStr "e1"]);
     ("uploadId", JStr "U1"); ("key", JStr "uploads/abc.mp4")] in
  snd (fetch Scenario.standard (Scenario.post "/complete" (JObj props))) =
    [Send (CompleteMultipartUploadCommand "large-video-uploads"
             (assoc "key" props) (assoc "uploadId" props)
             (map entryOf
                [JObj [("partNumber", JNum (ofZ 2)); ("size", JNum (ofZ 5))]; JStr "e1"]))].
Proof.
  apply (complete_forwards_entries Scenario.standard); reflexivity.
Defined.



(** X16.  A [null] among the entries of [parts] stops [/complete] before
    the storage client is called: reading [etag] of [null] throws, and the
    answer is the [catch]'s for that [TypeError]. *)
Theorem complete_null_entry_caught
  (h : Host) (request : Request) (props : list (string * JSON)) (items : list JSON) :
  (method request =? "OPTIONS") = false ->
  pathname (url request) = "/complete" ->
  json request = inr (JObj props) ->
  ToBoolean (assoc "key" props) = true ->
  ToBoolean (assoc "uploadId" props) = true ->
  assoc "parts" props = Some (JArr items) ->
  existsb isNull items = true ->
  fetch h request =
    (withCors h
       (errorResponse
          (TypeError (captureStackTrace h)
             "Cannot read properties of null (reading 'etag')")),
     []).
Proof.
  intros Hm Hp Hj Hk Hu Hparts Hnull.
  assert (Hn : (List.length items =? 0)%nat = false)
    by (destruct items; [discriminate Hnull | reflexivity]).
  rewrite (fetch_complete h _ Hm Hp).
  rewrite (complete_throws h request props
             (TypeError (captureStackTrace h)
                "Cannot read properties of null (reading 'etag')")
             Hj (invalidBody_array h props items Hk Hu Hparts Hn)).
  - reflexivity.
  - rewrite Hparts. unfold parts_map. now apply mapM_null.
Qed.

Lemma complete_null_entry_caught_witness :
  fetch Scenario.standard
    (Scenario.post "/complete"
       (JObj [("key", JStr "k"); ("uploadId", JStr "u");
              ("parts", JArr [Client.partJSON (Scenario.part "e1" 1); JNull])])) =
    (withCors Scenario.standard
       (errorResponse
          (TypeError (captureStackTrace Scenario.standard)
             "Cannot read properties of null (reading 'etag')")),
     []).
Proof.
  apply (complete_null_entry_caught Scenario.standard _
           [("key", JStr "k"); ("uploadId", JStr "u");
            ("parts", JArr [Client.partJSON (Scenario.part "e1" 1); JNull])]
           [Client.partJSON (Scenario.part "e1" 1); JNull]);
    reflexivity.
Defined.

(** X17.  A [parts] that is no array but has a truthy [length], a
    non-empty string or an object with such a member, passes the guard of
    [/complete] and then has no [map] to call: the storage client is not
    called, and the answer is the [catch]'s for that [TypeError]. *)
Theorem complete_parts_without_map_caught
  (h : Host) (request : Request) (props : list (string * JSON)) (p : JSON) :
  (method request =? "OPTIONS") = false ->
  pathname (url request) = "/complete" ->
  json request = inr (JObj props) ->
  ToBoolean (assoc "key" props) = true ->
  ToBoolean (assoc "uploadId" props) = true ->
  assoc "parts" props = Some p ->
  ((exists s, p = JStr s /\ (s =? "") = false) \/
   (exists members, p = JObj members /\ ToBoolean (assoc "length" members) = true)) ->
  fetch h request =
    (withCors h
       (errorResponse (TypeError (captureStackTrace h) "body.parts.map is not a function")),
     []).
Proof.
  intros Hm Hp Hj Hk Hu Hparts Hshape.
  rewrite (fetch_complete h _ Hm Hp).
  rewrite (complete_throws h request props
             (TypeError (captureStackTrace h) "body.parts.map is not a function") Hj).
  - reflexivity.
  - unfold invalidBody. rewrite Hk, Hu, Hparts. simpl.
    destruct Hshape as [(s & -> & Hs) | (members & -> & Hl)]; simpl.
    + rewrite numberToBoolean_ofNat. destruct s; [discriminate Hs | reflexivity].
    + now rewrite Hl.
  - rewrite Hparts.
    destruct Hshape as [(s & -> & _) | (members & -> & _)]; reflexivity.
Qed.

Lemma complete_parts_without_map_caught_witness :
  fetch Scenario.standard
    (Scenario.post "/complete"
       (JObj [("key", JStr "k"); ("uploadId", JStr "u");
              ("parts", JObj [("length", JNum (ofZ 1)); ("0", JStr "e1")])])) =
    (withCors Scenario.standard
       (errorResponse
          (TypeError (captureStackTrace Scenario.standard)
             "body.parts.map is not a function")),
     []).
Proof.
  apply (complete_parts_without_map_caught Scenario.standard _
           [("key", JStr "k"); ("uploadId", JStr "u");
            ("parts", JObj [("length", JNum (ofZ 1)); ("0", JStr "e1")])]
           (JObj [("length", JNum (ofZ 1)); ("0", JStr "e1")]));
    try reflexivity.
  right. exists [("length", JNum (ofZ 1)); ("0", JStr "e1")]. split; reflexivity.
Defined.

(** X18.  A body of [/complete] that parses to a boolean, a number, a
    string or an array has no [key]: it is turned away like an object
    without one, with no storage operation and the response built with
    status 400 and the text [Invalid request body]. *)
Theorem complete_rejects_other_values (h : Host) (request : Request) (b : JSON) :
  (method request =? "OPTIONS") = false ->
  pathname (url request) = "/complete" ->
  json request = inr b ->
  isNull b = false -> isObject b = false ->
  fetch h request = (withCors h invalidRequestBody, []).
Proof.
  intros Hm Hp Hj Hn Ho.
  rewrite (fetch_complete h _ Hm Hp). unfold complete. rewrite Hj, bind_lift_value.
  destruct b; try discriminate Hn; try discriminate Ho; reflexivity.
Qed.

Lemma complete_rejects_other_values_witness :
  fetch Scenario.standard
    (Scenario.post "/complete" (JArr [Client.toJSON (Scenario.manifest [])])) =
    (withCors Scenario.standard invalidRequestBody, []).
Proof.
  apply (complete_rejects_other_values Scenario.standard _
           (JArr [Client.toJSON (Scenario.manifest [])])); reflexivity.
Defined.

(* ------------------------------------------------------------------ *)
(** *** Initiate, the rest of its answer *)
(* ------------------------------------------------------------------ *)

(** X19.  The [uploadId] of the answer to [/initiate] is the [UploadId]
    the storage client returned, unchanged; when the client returned none,
    the answer has no member [uploadId] and still has its [key]. *)
Theorem initiate_returns_upload_id (h : Host) (request : Request) (res : Output) :
  (method request =? "OPTIONS") = false ->
  pathname (url request) = "/initiate" ->
  send h (CreateMultipartUploadCommand "large-video-uploads"
            ("uploads/" ++ randomUUID h ++ ".mp4")) = inr res ->
  responseField (fst (fetch h request)) "uploadId" = option_map JStr (UploadId res) /\
  body (fst (fetch h request)) =
    Some (Json (JObj (match UploadId res with
                      | Some id => [("uploadId", JStr id)]
                      | None => []
                      end ++ [("key", JStr ("uploads/" ++ randomUUID h ++ ".mp4"))])%list)).
Proof.
  intros Hm Hp Hs.
  rewrite (fetch_route h _ Hm). unfold route. rewrite Hp. simpl.
  rewrite initiate_run. cbv zeta. rewrite Hs. simpl fst.
  unfold responseField. rewrite withCors_body. simpl.
  destruct (UploadId res); split; reflexivity.
Qed.

Lemma initiate_returns_upload_id_witness :
  let h := Scenario.standard in
  let request := Scenario.request "GET" "/initiate" [] in
  responseField (fst (fetch h request)) "uploadId" = option_map JStr (Some "U1") /\
  body (fst (fetch h request)) =
    Some (Json (JObj ([("uploadId", JStr "U1")] ++
                      [("key", JStr ("uploads/" ++ randomUUID h ++ ".mp4"))])%list)).
Proof.
  exact (initiate_returns_upload_id Scenario.standard
           (Scenario.request "GET" "/initiate" [])
           {| UploadId := Some "U1";
              Location := Some "https://r2.example/large-video-uploads/uploads/abc.mp4" |}
           eq_refl eq_refl eq_refl).
Defined.

(* ------------------------------------------------------------------ *)
(** *** [withCors] as a function on responses *)
(* ------------------------------------------------------------------ *)

Section WithCorsAlgebra.

Variable h : Host.

Lemma withCors_normal (r : Response) :
  withCors h r =
  {| status := if responseOwnProperties h then status r else 200%N;
     statusText := if responseOwnProperties h then statusText r else "";
     headers := corsHeaders (headers r);
     body := body r |}.
Proof.
  unfold withCors, new_Response, withHeaders, spread, bodyStream, corsHeaders.
  destruct (responseOwnProperties h), (body r); reflexivity.
Qed.

Lemma setRaw_unchanged (hs : Headers) (n v : string) :
  getRaw hs n = Some v -> setRaw hs n v = hs.
Proof.
  induction hs as [|[k w] r IH]; simpl; [discriminate|].
  destruct (k =? n) eqn:E.
  - intros Hv. now inversion Hv.
  - intros Hv. now rewrite (IH Hv).
Qed.

Lemma corsHeaders_idempotent (hs : Headers) :
  corsHeaders (corsHeaders hs) = corsHeaders hs.
Proof.
  unfold corsHeaders, set.
  change (lower "Access-Control-Allow-Origin") with "access-control-allow-origin".
  change (lower "Access-Control-Allow-Methods") with "access-control-allow-methods".
  change (lower "Access-Control-Allow-Headers") with "access-control-allow-headers".
  set (h1 := setRaw hs "access-control-allow-origin" "*").
  set (h2 := setRaw h1 "access-control-allow-methods" "GET,POST,OPTIONS").
  set (h3 := setRaw h2 "access-control-allow-headers" "Content-Type").
  assert (H1 : setRaw h3 "access-control-allow-origin" "*" = h3).
  { apply setRaw_unchanged. unfold h3, h2.
    rewrite !getRaw_setRaw_other by reflexivity. apply getRaw_setRaw_same. }
  rewrite H1.
  assert (H2 : setRaw h3 "access-control-allow-methods" "GET,POST,OPTIONS" = h3).
  { apply setRaw_unchanged. unfold h3.
    rewrite getRaw_setRaw_other by reflexivity. apply getRaw_setRaw_same. }
  rewrite H2.
  apply setRaw_unchanged, getRaw_setRaw_same.
Qed.

End WithCorsAlgebra.

(** X20.  [withCors] is idempotent: a response that went through it once
    comes out of a second pass unchanged, in status, status text, headers
    and body. *)
Theorem withCors_idempotent (h : Host) (r : Response) :
  withCors h (withCors h r) = withCors h r.
Proof.
  rewrite (withCors_normal h (withCors h r)), (withCors_normal h r). simpl.
  rewrite corsHeaders_idempotent.
  now destruct (responseOwnProperties h).
Qed.

(** X21.  [withCors] touches no header but its three: a header of any
    other name, in whatever case it is asked for, has after [withCors] the
    value it had before, and one of the three that the response already
    had is overwritten. *)
Theorem withCors_keeps_other_headers (h : Host) (r : Response) (name : string) :
  (lower name =? "access-control-allow-origin") = false ->
  (lower name =? "access-control-allow-methods") = false ->
  (lower name =? "access-control-allow-headers") = false ->
  get (headers (withCors h r)) name = get (headers r) name /\
  carriesCors (withCors h r).
Proof.
  intros H1 H2 H3. split; [|apply withCors_carriesCors].
  rewrite withCors_headers. unfold get, set.
  change (lower "Access-Control-Allow-Origin") with "access-control-allow-origin".
  change (lower "Access-Control-Allow-Methods") with "access-control-allow-methods".
  change (lower "Access-Control-Allow-Headers") with "access-control-allow-headers".
  rewrite !getRaw_setRaw_other; [reflexivity | | |];
    rewrite String.eqb_sym; assumption.
Qed.

Lemma withCors_keeps_other_headers_witness :
  let r :=
    new_Response (Some (FromString (Plain "x")))
      {| init_status := None; init_statusText := None;
         init_headers :=
           Some (fromRecord [("X-Request-Id", "42");
                             ("Access-Control-Allow-Origin", "https://example.org")]) |} in
  get (headers (withCors Scenario.standard r)) "x-request-ID" = get (headers r) "x-request-ID" /\
  carriesCors (withCors Scenario.standard r).
Proof.
  apply withCors_keeps_other_headers; reflexivity.
Defined.

(* ------------------------------------------------------------------ *)
(** *** The key determines the random identifier *)
(* ------------------------------------------------------------------ *)

Lemma length_append (a s : string) :
  String.length (a ++ s) = String.length a + String.length s.
Proof. induction a as [|c a IH]; simpl; [reflexivity | now rewrite IH]. Qed.

Lemma append_inv_tail (a b s : string) : a ++ s = b ++ s -> a = b.
Proof.
  revert b. induction a as [|c a IH]; intros [|d b] H; simpl in H.
  - reflexivity.
  - apply (f_equal String.length) in H. simpl in H. rewrite length_append in H. lia.
  - apply (f_equal String.length) in H. simpl in H. rewrite length_append in H. lia.
  - inversion H. f_equal. now apply IH.
Qed.

(** X22.  The object key of [/initiate] determines the random identifier
    it was made from: two initiate calls that open a session for the same
    key drew the same identifier, so distinct identifiers never share a
    key. *)
Theorem initiate_key_determines_identifier (h1 h2 : Host) (r1 r2 : Request) :
  (method r1 =? "OPTIONS") = false -> pathname (url r1) = "/initiate" ->
  (method r2 =? "OPTIONS") = false -> pathname (url r2) = "/initiate" ->
  snd (fetch h1 r1) = snd (fetch h2 r2) ->
  randomUUID h1 = randomUUID h2.
Proof.
  intros Hm1 Hp1 Hm2 Hp2.
  rewrite (fetch_log h1 _ Hm1), (fetch_log h2 _ Hm2).
  unfold route. rewrite Hp1, Hp2. simpl. rewrite !initiate_run. simpl.
  intros H. inversion H as [Hk].
  now apply append_inv_tail in Hk.
Qed.

Lemma initiate_key_determines_identifier_witness :
  randomUUID Scenario.standard = randomUUID (Scenario.failing true).
Proof.
  apply (initiate_key_determines_identifier Scenario.standard (Scenario.failing true)
           (Scenario.request "GET" "/initiate" []) (Scenario.request "POST" "/initiate" []));
    reflexivity.
Defined.

(* ================================================================== *)
(** ** The earlier revisions ([src/unnamed/part_000]) *)
(* ================================================================== *)

Section RevisionFacts.

Variable h : Host.

Lemma lifted_ret (r : Response) : lifted h (ret r) (ret (withCors h r)).
Proof. reflexivity. Qed.

Lemma lifted_bind {A} (m : M A) (f1 f2 : A -> M Response) :
  (forall a, lifted h (f1 a) (f2 a)) -> lifted h (bind m f1) (bind m f2).
Proof.
  unfold lifted. intros Hf. destruct m as [log [e|a]]; simpl; [reflexivity|].
  rewrite (Hf a). destruct (f1 a) as [l1 [e1|r1]]; simpl; [reflexivity|].
  now rewrite !app_nil_r.
Qed.

Lemma route_lifted (request : Request) :
  lifted h (Revision1.route h request) (Revision2.route h request).
Proof.
  unfold Revision1.route, Revision2.route,
    Revision1.initiate, Revision2.initiate,
    Revision1.signPart, Revision2.signPart,
    Revision1.complete, Revision2.complete.
  repeat first
    [ apply lifted_ret
    | apply lifted_bind; intros
    | match goal with |- context [if ?b then _ else _] => destruct b end ].
Qed.

(** The responses the first revision builds are the built ones. *)
Lemma route1_built (request : Request) (r : Response) :
  snd (Revision1.route h request) = inr r -> Built r.
Proof.
  assert (Hgen : forall m : M Response,
            (forall r0, snd m = inr r0 -> Built r0) ->
            forall r0, snd m = inr r0 -> Built r0) by auto.
  revert r.
  unfold Revision1.route, Revision1.initiate, Revision1.signPart, Revision1.complete.
  assert (Hret : forall r0, Built r0 -> forall r, snd (ret r0) = inr r -> Built r).
  { intros r0 Hb r Hr. inversion Hr. now subst. }
  assert (Hbind : forall A (m : M A) (f : A -> M Response),
            (forall a r, snd (f a) = inr r -> Built r) ->
            forall r, snd (bind m f) = inr r -> Built r).
  { intros A [log [e|a]] f Hf r; simpl; [discriminate|].
    specialize (Hf a). destruct (f a) as [l' r']. simpl in *. apply Hf. }
  repeat first
    [ apply Hret; constructor
    | apply Hbind; intros ?
    | match goal with |- context [if ?b then _ else _] => destruct b end ].
Qed.

Lemma Built_no_cors (r : Response) :
  Built r ->
  get (headers r) "Access-Control-Allow-Origin" = None /\
  get (headers r) "Access-Control-Allow-Methods" = None /\
  get (headers r) "Access-Control-Allow-Headers" = None.
Proof. intros [| | | e | props]; repeat split. Qed.

Lemma log1_videos (request : Request) :
  Forall (fun c => Bucket (command c) = "videos") (fst (Revision1.route h request)).
Proof.
  unfold Revision1.route, Revision1.initiate, Revision1.signPart, Revision1.complete.
  repeat first
    [ apply log_send; reflexivity
    | apply log_bind;
        [ first [ apply log_quiet; first [apply quiet_lift | apply quiet_parts_map]
                | unfold s3_getSignedUrl; simpl; now repeat constructor ]
        | intros ]
    | match goal with |- context [if ?b then _ else _] => destruct b end
    | constructor ].
Qed.

Lemma lifted_log (m1 m2 : M Response) : lifted h m1 m2 -> fst m2 = fst m1.
Proof.
  unfold lifted. intros ->. destruct m1 as [log [e|r]]; simpl; [reflexivity|].
  apply app_nil_r.
Qed.

End RevisionFacts.

Lemma fetch1_log (h : Host) (request : Request) :
  snd (Revision1.fetch h request) = fst (Revision1.route h request) /\
  fst (Revision1.fetch h request) = snd (Revision1.route h request).
Proof. unfold Revision1.fetch. now destruct (Revision1.route h request). Qed.

(** X23.  In both earlier revisions every storage operation, of whatever
    phase and request, names the one bucket [videos]. *)
Theorem earlier_revisions_one_bucket (h : Host) (request : Request) :
  Forall (fun c => Bucket (command c) = "videos") (snd (Revision1.fetch h request)) /\
  Forall (fun c => Bucket (command c) = "videos") (snd (Revision2.fetch h request)).
Proof.
  split.
  - rewrite (proj1 (fetch1_log h request)). apply log1_videos.
  - unfold Revision2.fetch.
    destruct (method request =? "OPTIONS"); [constructor|].
    pose proof (lifted_log h _ _ (route_lifted h request)) as Hl.
    pose proof (log1_videos h request) as Hv.
    destruct (Revision2.route h request) as [log [e|r]]; simpl in *; now rewrite Hl.
Qed.

(** X24.  The second revision is the first one behind [withCors] and a
    [catch]: to a request that is no preflight it makes the storage
    operations the first revision makes, answers with [withCors] of the
    first revision's response, and where the first revision's promise is
    rejected it answers with [withCors] of the response built with status
    500 for what was thrown. *)
Theorem revision2_wraps_revision1 (h : Host) (request : Request) :
  (method request =? "OPTIONS") = false ->
  Revision2.fetch h request =
  match Revision1.fetch h request with
  | (inr response, log) => (withCors h response, log)
  | (inl err, log) => (withCors h (Revision2.errorResponse err), log)
  end.
Proof.
  intros Hm. unfold Revision2.fetch, Revision1.fetch. rewrite Hm.
  rewrite (route_lifted h request).
  destruct (Revision1.route h request) as [log [e|r]]; simpl; [reflexivity|].
  now rewrite app_nil_r.
Qed.

Lemma revision2_wraps_revision1_witness :
  let h := Scenario.standard in
  let request := Scenario.signPart "3" in
  Revision2.fetch h request =
  match Revision1.fetch h request with
  | (inr response, log) => (withCors h response, log)
  | (inl err, log) => (withCors h (Revision2.errorResponse err), log)
  end.
Proof.
  exact (revision2_wraps_revision1 Scenario.standard (Scenario.signPart "3") eq_refl).
Defined.

(** X25.  No response of the first revision carries a cross-origin
    header, and the first revision has no preflight answer: it routes an
    [OPTIONS] request like any other, so that a preflight to [/initiate]
    opens an upload session. *)
Theorem revision1_has_no_cors (h : Host) (request : Request) :
  (forall r, fst (Revision1.fetch h request) = inr r ->
     get (headers r) "Access-Control-Allow-Origin" = None /\
     get (headers r) "Access-Control-Allow-Methods" = None /\
     get (headers r) "Access-Control-Allow-Headers" = None) /\
  (pathname (url request) = "/initiate" ->
     snd (Revision1.fetch h request) =
       [Send (CreateMultipartUploadCommand "videos"
                ("uploads/" ++ randomUUID h ++ ".mp4"))]).
Proof.
  split.
  - intros r Hr. rewrite (proj2 (fetch1_log h request)) in Hr.
    apply Built_no_cors. exact (route1_built h request r Hr).
  - intros Hp. rewrite (proj1 (fetch1_log h request)).
    unfold Revision1.route. rewrite Hp. simpl.
    unfold Revision1.initiate. apply fst_bind_send.
Qed.

(** X26.  In the first revision nothing catches: a [/complete] request
    whose body is no JSON text makes no storage operation and rejects the
    handler's promise with the exception of [request.json()], so that no
    response is produced. *)
Theorem revision1_unparseable_body_rejects (h : Host) (request : Request) (err : Error) :
  pathname (url request) = "/complete" ->
  json request = inl err ->
  Revision1.fetch h request = (inl err, []).
Proof.
  intros Hp Hj. unfold Revision1.fetch, Revision1.route. rewrite Hp. simpl.
  unfold Revision1.complete. now rewrite Hj.
Qed.

Lemma revision1_unparseable_body_rejects_witness :
  Revision1.fetch Scenario.standard (Scenario.request "POST" "/complete" []) =
    (inl Scenario.syntaxError, []).
Proof.
  exact (revision1_unparseable_body_rejects Scenario.standard
           (Scenario.request "POST" "/complete" []) Scenario.syntaxError eq_refl eq_refl).
Defined.

(** X27.  The [catch] of the second revision reports the message alone:
    whatever its [try] throws, the body of the answer is the JSON text of
    an object whose only member is [error], and no stack trace leaves the
    handler. *)
Theorem revision2_catch_reports_message_only
  (h : Host) (request : Request) (err : Error) :
  (method request =? "OPTIONS") = false ->
  snd (Revision2.route h request) = inl err ->
  body (fst (Revision2.fetch h request)) =
    Some (Json (JObj [("error", JStr (message err))])) /\
  responseField (fst (Revision2.fetch h request)) "stack" = undefined.
Proof.
  intros Hm Hr. unfold Revision2.fetch. rewrite Hm.
  destruct (Revision2.route h request) as [log [e|r]]; simpl in Hr; [|discriminate Hr].
  inversion Hr. subst e. simpl fst.
  unfold responseField. rewrite withCors_body. split; reflexivity.
Qed.

Lemma revision2_catch_reports_message_only_witness :
  let h := Scenario.failing false in
  let request := Scenario.request "GET" "/initiate" [] in
  body (fst (Revision2.fetch h request)) =
    Some (Json (JObj [("error", JStr (message Scenario.sessionNotFound))])) /\
  responseField (fst (Revision2.fetch h request)) "stack" = undefined.
Proof.
  exact (revision2_catch_reports_message_only (Scenario.failing false)
           (Scenario.request "GET" "/initiate" []) Scenario.sessionNotFound
           eq_refl eq_refl).
Defined.

(* ------------------------------------------------------------------ *)
(** *** From the second revision to [src/index.ts] *)
(* ------------------------------------------------------------------ *)

Section Simulation.

Variable h : Host.










End Simulation.


(* ------------------------------------------------------------------ *)
(** *** The signed URL in the log *)
(* ------------------------------------------------------------------ *)

Lemma substring_head (n : nat) (s : string) :
  String.length (substring 0 n s) = Nat.min n (String.length s) /\
  String.prefix (substring 0 n s) s = true.
Proof.
  revert s. induction n as [|n IH]; intros s.
  - destruct s; simpl; split; reflexivity.
  - destruct s as [|c s]; simpl; [now split|].
    destruct (IH s) as [Hl Hp]. rewrite Hl. split; [reflexivity|].
    destruct (ascii_dec c c) as [_|Hc]; [exact Hp | now elim Hc].
Qed.

(** X29.  Of a signed URL the handler logs at most its first 60
    characters, followed by three dots: the logged text is a prefix of
    the URL of length [min 60 (length url)] and the dots, whatever the
    URL. *)
Theorem signed_url_log_is_truncated (signedUrl : string) :
  String.length (Console.signedUrlForLog signedUrl) =
    Nat.min 60 (String.length signedUrl) + 3 /\
  exists shown,
    Console.signedUrlForLog signedUrl = shown ++ "..." /\
    String.prefix shown signedUrl = true /\
    String.length shown <= 60.
Proof.
  unfold Console.signedUrlForLog.
  destruct (substring_head 60 signedUrl) as [Hl Hp].
  split.
  - rewrite length_append, Hl. reflexivity.
  - exists (substring 0 60 signedUrl). repeat split; [exact Hp|].
    rewrite Hl. apply Nat.le_min_l.
Qed.
